(** * Book Hub: the two React front ends and the backend they talk to

    The repository has two versions of the front end: docs/app.js, whose
    recommendation page takes one free-text query, and a later one with a
    review delete button and a multi-step quiz (called the quiz client
    below).  Both are embedded here, handler by handler.

    JavaScript strings are sequences of UTF-16 code units; the state of a
    React function component is a record; an event handler runs against the
    state of the render that created it and queues state updates and
    outgoing requests. *)

From Stdlib Require Import Ascii String QArith.
From stdpp Require Import base tactics option list numbers.

Local Open Scope N_scope.

(** ** JavaScript strings *)

Module Js.

(** A string value: its UTF-16 code units. *)
Definition str := list N.

(** An ASCII literal of the source text. *)
Fixpoint lit (s : string) : str :=
  match s with
  | EmptyString => []
  | String c r => N_of_ascii c :: lit r
  end.

(** [ToBoolean] on a string: only the empty string is falsy. *)
Definition truthy (s : str) : bool :=
  match s with [] => false | _ :: _ => true end.

(** WhiteSpace and LineTerminator code points of ECMAScript, the set that
    [String.prototype.trim] and [parseInt] strip: TAB, LF, VT, FF, CR, SP,
    NBSP, U+1680, U+2000..U+200A, LS, PS, U+202F, U+205F, U+3000, BOM. *)
Definition is_white_space (c : N) : bool :=
  (9 <=? c) && (c <=? 13)
  || (c =? 32) || (c =? 160) || (c =? 5760)
  || (8192 <=? c) && (c <=? 8202)
  || (c =? 8232) || (c =? 8233) || (c =? 8239) || (c =? 8287)
  || (c =? 12288) || (c =? 65279).

Fixpoint trim_start (s : str) : str :=
  match s with
  | [] => []
  | c :: r => if is_white_space c then trim_start r else s
  end.

Definition trim_end (s : str) : str := rev (trim_start (rev s)).

(** [s.trim()] *)
Definition trim (s : str) : str := trim_end (trim_start s).

(** [t] is [s] with its leading and trailing white space removed: [s] is
    [t] between two runs of white space, and [t] neither starts nor ends
    with white space. *)
Definition trimmed_of (s t : str) : Prop :=
  exists pre post,
    s = pre ++ t ++ post
    /\ Forall (fun c => is_white_space c = true) pre
    /\ Forall (fun c => is_white_space c = true) post
    /\ (forall c r, t = c :: r -> is_white_space c = false)
    /\ (forall r c, t = r ++ [c] -> is_white_space c = false).

(** Nothing but white space. *)
Definition blank (s : str) : Prop :=
  Forall (fun c => is_white_space c = true) s.

(** [parts.join(sep)] on an array of strings. *)
Fixpoint join (sep : str) (parts : list str) : str :=
  match parts with
  | [] => []
  | [p] => p
  | p :: rest => p ++ sep ++ join sep rest
  end.

(** Decimal digit value of a code unit. *)
Definition digit_value (c : N) : option Z :=
  if (48 <=? c) && (c <=? 57) then Some (Z.of_N (c - 48)) else None.

(** The longest prefix of decimal digits, most significant first. *)
Fixpoint leading_digits (s : str) : list Z :=
  match s with
  | [] => []
  | c :: r =>
      match digit_value c with
      | Some d => d :: leading_digits r
      | None => []
      end
  end.

Definition digits_value (ds : list Z) : Z :=
  fold_left (fun acc d => (10 * acc + d)%Z) ds 0%Z.

(** The Number for a mathematical integer: the nearest binary64 value, ties
    to the even significand; [None] when it overflows to an infinity.  Every
    integer below 2^53 in magnitude is its own Number. *)
Definition to_number (n : Z) : option Z :=
  let a := Z.abs n in
  if (a <? 2 ^ 53)%Z then Some n
  else
    let e := (Z.log2 a - 52)%Z in
    let q := Z.shiftr a e in
    let r := (a - Z.shiftl q e)%Z in
    let half := Z.shiftl 1 (e - 1) in
    let q' := if (half <? r)%Z || (r =? half)%Z && Z.odd q
              then (q + 1)%Z else q in
    let m := Z.shiftl q' e in
    if (2 ^ 1024 <=? m)%Z then None else Some (Z.sgn n * m)%Z.

(** [parseInt(s, 10)] as [JSON.stringify] writes it: leading white space is
    skipped, one optional sign is read, then the longest run of decimal
    digits, whose value becomes a Number.  [None] is what is written as
    [null]: NaN (no digit) or an infinity (too many digits); [Some z] is the
    finite Number [z].  With radix 10 no [0x] prefix is recognised.  Engines
    round the digits correctly, which is what [to_number] does. *)
Definition parseInt10 (s : str) : option Z :=
  let s1 := trim_start s in
  let '(sign, s2) :=
    match s1 with
    | 45 :: r => ((-1)%Z, r)
    | 43 :: r => (1%Z, r)
    | _ => (1%Z, s1)
    end in
  match leading_digits s2 with
  | [] => None
  | ds => to_number (sign * digits_value ds)
  end.

End Js.

Arguments Js.lit s%_string.
Arguments Js.lit : simpl never.
Abbreviation js := Js.lit.

(** ** What leaves the page *)

(** The [payload] object of [handleSubmit]; [score] is [None] for NaN or an
    infinity, which [JSON.stringify] writes as [null]; [image] is present
    only once [sendData] has set it. *)
Module Payload.
Record t := mk {
  author : Js.str;
  title : Js.str;
  content : Js.str;
  score : option Z;
  image : option Js.str
}.
End Payload.

Module Http.

Inductive method := GET | POST | DELETE.

(** Paths below [API_BASE]. *)
Inductive endpoint :=
| ApiReviews
| ApiReview (reviewId : Z)
| ApiRecommendations.

(** The [body] option of [fetch]: absent, or [JSON.stringify] of an object. *)
Inductive body :=
| NoBody
| JsonReview (payload : Payload.t)
| JsonQuery (query : Js.str).

Record request := mk {
  meth : method;
  path : endpoint;
  headers : list (Js.str * Js.str);
  payload : body
}.

(** How a [fetch(..).then(res => res.json())] chain settles: with the
    parsed reply, or rejected (network failure, a body that is not JSON, or
    a reply on which the first property read throws). *)
Inductive settled (D : Type) :=
| Fulfilled (data : D)
| Rejected.
Arguments Fulfilled {D} data.
Arguments Rejected {D}.

Definition json_headers : list (Js.str * Js.str) :=
  [(js "Content-Type", js "application/json")].

End Http.

(** A file picked in the file input. *)
Record file := { file_type : Js.str; file_bytes : list N }.

(** What a handler does besides queueing state updates. *)
Inductive effect :=
| PreventDefault
| Fetch (r : Http.request)
| ReadAsDataURL (f : file) (payload : Payload.t)
| Prompt (text : Js.str)
| Confirm (text : Js.str).

Definition requests (es : list effect) : list Http.request :=
  omap (fun e => match e with Fetch r => Some r | _ => None end) es.

(** ** Event handlers of a function component

    A handler closes over the state of the render that created it (first
    argument: what it reads) and queues updates that React applies in order
    (second argument: the state being built); it also emits effects. *)

Definition handler (S A : Type) : Type := S -> S -> A * S * list effect.

#[global] Instance handler_ret {S} : MRet (handler S) :=
  fun A a _ s => (a, s, []).

#[global] Instance handler_bind {S} : MBind (handler S) :=
  fun A B f m snap s =>
    let '(a, s1, e1) := m snap s in
    let '(b, s2, e2) := f a snap s1 in
    (b, s2, e1 ++ e2).

(** Read a state variable of the closure. *)
Definition get {S A} (f : S -> A) : handler S A :=
  fun snap s => (f snap, s, []).

(** A [setX(..)] call; functional updates see the queued state. *)
Definition update {S} (f : S -> S) : handler S unit :=
  fun _ s => (tt, f s, []).

Definition emit {S} (e : effect) : handler S unit :=
  fun _ s => (tt, s, [e]).

Definition skip {S} : handler S unit := mret tt.

(** One event: the handler runs to completion, then the component renders
    with the updated state. *)
Definition run {S} (h : handler S unit) (s : S) : S * list effect :=
  let '(_, s', es) := h s s in (s', es).

(** ** BlogPage

    State and handlers of [BlogPage].  [handleSubmit] is the same text in
    docs/app.js and in the quiz client; [loadError] and [handleDelete] exist
    in the latter only, and [handleSubmit] touches neither. *)

Module Blog.

(** A row of the list served by [GET /api/reviews]. *)
Record review := {
  id : Z;
  r_title : Js.str;
  r_author : Js.str;
  r_score : Z;
  r_content : Js.str;
  cover_url : option Js.str
}.

(** The state variables.  [score] starts as the number 5 and is later the
    text of the number input; [parseInt] reads it through [ToString], which
    is what the field holds here. *)
Record state := mk {
  reviews : list review;
  author : Js.str;
  title : Js.str;
  content : Js.str;
  score : Js.str;
  imageFile : option file;
  message : Js.str;
  loadError : Js.str
}.

Definition initial : state :=
  mk [] [] [] [] (js "5") None [] [].

Definition setReviews v : handler state unit :=
  update (fun s => mk v (author s) (title s) (content s) (score s) (imageFile s) (message s) (loadError s)).
Definition setAuthor v : handler state unit :=
  update (fun s => mk (reviews s) v (title s) (content s) (score s) (imageFile s) (message s) (loadError s)).
Definition setTitle v : handler state unit :=
  update (fun s => mk (reviews s) (author s) v (content s) (score s) (imageFile s) (message s) (loadError s)).
Definition setContent v : handler state unit :=
  update (fun s => mk (reviews s) (author s) (title s) v (score s) (imageFile s) (message s) (loadError s)).
Definition setScore v : handler state unit :=
  update (fun s => mk (reviews s) (author s) (title s) (content s) v (imageFile s) (message s) (loadError s)).
Definition setImageFile v : handler state unit :=
  update (fun s => mk (reviews s) (author s) (title s) (content s) (score s) v (message s) (loadError s)).
Definition setMessage v : handler state unit :=
  update (fun s => mk (reviews s) (author s) (title s) (content s) (score s) (imageFile s) v (loadError s)).
Definition setLoadError v : handler state unit :=
  update (fun s => mk (reviews s) (author s) (title s) (content s) (score s) (imageFile s) (message s) v).

Definition wake_up_hint : Js.str :=
  js "Backend may be waking up. If you're using Render's free tier, wait 30-60 seconds and refresh.".

Definition fetchReviews : handler state unit :=
  emit (Fetch (Http.mk Http.GET Http.ApiReviews [] Http.NoBody)).

Definition onReviewsSettled (r : Http.settled (list review)) : handler state unit :=
  match r with
  | Http.Fulfilled data => setReviews data;; setLoadError []
  | Http.Rejected => setReviews [];; setLoadError wake_up_hint
  end.

(** [if (imageBase64)]: [null] and the empty string are falsy. *)
Definition sendData (payload : Payload.t) (imageBase64 : option Js.str)
  : handler state unit :=
  let payload :=
    match imageBase64 with
    | Some data =>
        if Js.truthy data
        then Payload.mk (Payload.author payload) (Payload.title payload)
               (Payload.content payload) (Payload.score payload) (Some data)
        else payload
    | None => payload
    end in
  emit (Fetch (Http.mk Http.POST Http.ApiReviews Http.json_headers
                 (Http.JsonReview payload))).

Definition required_fields_missing : Js.str :=
  js "Please fill in all required fields.".

Definition handleSubmit : handler state unit :=
  emit PreventDefault;;
  setMessage [];;
  author ← get author;
  title ← get title;
  content ← get content;
  score ← get score;
  let payload :=
    Payload.mk (Js.trim author) (Js.trim title) (Js.trim content)
      (Js.parseInt10 score) None in
  if negb (Js.truthy (Payload.author payload))
     || negb (Js.truthy (Payload.title payload))
     || negb (Js.truthy (Payload.content payload))
  then setMessage required_fields_missing
  else
    imageFile ← get imageFile;
    match imageFile with
    | Some f => emit (ReadAsDataURL f payload)
    | None => sendData payload None
    end.

(** [reader.onloadend]: [reader.result] is the data URL, or [null] when the
    read failed. *)
Definition onloadend (payload : Payload.t) (result : option Js.str)
  : handler state unit :=
  sendData payload result.

Definition review_payload (r : Http.request) : list Payload.t :=
  match Http.payload r with
  | Http.JsonReview p => [p]
  | _ => []
  end.

(** Every review payload that leaves the page for one submit event in
    state [s]: the one posted at once, or the one posted when the file
    read started by the handler ends with [result]. *)
Definition transmitted (s : state) (result : option Js.str)
  : list Payload.t :=
  let '(s1, es) := run handleSubmit s in
  flat_map (fun e =>
              match e with
              | Fetch r => review_payload r
              | ReadAsDataURL _ p =>
                  flat_map review_payload
                    (requests (snd (run (onloadend p result) s1)))
              | _ => []
              end) es.

(** Two filled-in forms: one whose title is white space only, one
    complete, with padded fields and a score of 11. *)
Definition blank_title_form : state :=
  mk [] (js "A. Lee") (js "   ") (js "a slow, melancholic literary drama")
    (js "7") None [] [].

Definition padded_form : state :=
  mk [] (js "  A. Lee ") (js " Quiet Nights") (js "a slow drama  ")
    (js "11") None [] [].

(** The fields of a JSON reply that the handlers read; [None] when the
    property is absent or not a string. *)
Record reply := { status : option Js.str; error : option Js.str }.

Definition set_error_message (data : reply) (otherwise : handler state unit)
  : handler state unit :=
  match error data with
  | Some e => if Js.truthy e then setMessage e else otherwise
  | None => otherwise
  end.

Definition onSubmitSettled (r : Http.settled reply) : handler state unit :=
  match r with
  | Http.Fulfilled data =>
      if decide (status data = Some (js "success")) then
        setMessage (js "Review submitted successfully!");;
        setAuthor [];;
        setTitle [];;
        setContent [];;
        setScore (js "5");;
        setImageFile None;;
        fetchReviews
      else set_error_message data skip
  | Http.Rejected =>
      setMessage (js "An error occurred while submitting the review.")
  end.

(** [handleDelete(reviewId)]: [passcode] is what [window.prompt] returns
    ([None] when cancelled), [confirmed] what [window.confirm] returns; the
    confirmation is only asked once a passcode was typed. *)
Definition handleDelete (reviewId : Z) (passcode : option Js.str)
    (confirmed : bool) : handler state unit :=
  emit (Prompt (js "Enter delete passcode:"));;
  match passcode with
  | None => skip
  | Some passcode =>
      if negb (Js.truthy passcode) then skip
      else
        emit (Confirm (js "Delete this review? This cannot be undone."));;
        if negb confirmed then skip
        else
          emit (Fetch (Http.mk Http.DELETE (Http.ApiReview reviewId)
                         [(js "X-Delete-Passcode", passcode)] Http.NoBody))
  end.

Definition onDeleteSettled (r : Http.settled reply) : handler state unit :=
  match r with
  | Http.Fulfilled data =>
      if decide (status data = Some (js "deleted")) then
        setMessage (js "Review deleted.");;
        fetchReviews
      else set_error_message data (setMessage (js "Unable to delete review."))
  | Http.Rejected =>
      setMessage (js "An error occurred while deleting the review.")
  end.

End Blog.

(** ** Recommendations as the pages receive them *)

(** A recommendation as displayed: [title], [author] and, for the global
    side, [year]. *)
Record best_match := {
  bm_title : Js.str;
  bm_author : Js.str;
  bm_year : option Z
}.

(** The reply of [POST /api/recommendations]: [data.global] and [data.local],
    [None] for [null], a missing property or any other falsy value. *)
Record recommendations := {
  global : option best_match;
  local : option best_match
}.

Inductive global_panel :=
| GlobalMatch (m : best_match)
| NoGlobalRecommendation.

Inductive local_panel :=
| LocalMatch (m : best_match)
| NotEnoughData.

(** The "Recommendations" block; [warning] is the closing alert of the quiz
    client. *)
Record results_view := {
  global_view : global_panel;
  local_view : local_panel;
  warning : bool
}.

Definition show_global (globalRec : option best_match) : global_panel :=
  match globalRec with
  | Some m => GlobalMatch m
  | None => NoGlobalRecommendation
  end.

Definition show_local (localRec : option best_match) : local_panel :=
  match localRec with
  | Some m => LocalMatch m
  | None => NotEnoughData
  end.

(** ** RecommendationPage of docs/app.js: one free-text query *)

Module Docs.

Record state := mk {
  query : Js.str;
  globalRec : option best_match;
  localRec : option best_match;
  message : Js.str
}.

Definition initial : state := mk [] None None [].

Definition setQuery v : handler state unit :=
  update (fun s => mk v (globalRec s) (localRec s) (message s)).
Definition setGlobalRec v : handler state unit :=
  update (fun s => mk (query s) v (localRec s) (message s)).
Definition setLocalRec v : handler state unit :=
  update (fun s => mk (query s) (globalRec s) v (message s)).
Definition setMessage v : handler state unit :=
  update (fun s => mk (query s) (globalRec s) (localRec s) v).

Definition empty_query_message : Js.str :=
  js "Please enter a description of what you like to read.".

Definition handleRecommend : handler state unit :=
  emit PreventDefault;;
  setMessage [];;
  setGlobalRec None;;
  setLocalRec None;;
  query ← get query;
  let q := Js.trim query in
  if negb (Js.truthy q) then setMessage empty_query_message
  else
    emit (Fetch (Http.mk Http.POST Http.ApiRecommendations Http.json_headers
                   (Http.JsonQuery q))).

Definition onRecommendationsSettled (r : Http.settled recommendations)
  : handler state unit :=
  match r with
  | Http.Fulfilled data =>
      setGlobalRec (global data);;
      setLocalRec (local data)
  | Http.Rejected =>
      setMessage (js "An error occurred while retrieving recommendations.")
  end.

(** The block is rendered only when [globalRec || localRec]. *)
Definition render_results (s : state) : option results_view :=
  if bool_decide (is_Some (globalRec s)) || bool_decide (is_Some (localRec s))
  then Some {| global_view := show_global (globalRec s);
               local_view := show_local (localRec s);
               warning := false |}
  else None.

End Docs.

(** ** RecommendationPage of the quiz client *)

Module Quiz.

(** [type: "choice"] with its [options], or [type: "text"] with its
    [placeholder]. *)
Inductive question_type :=
| Choice (options : list Js.str)
| Text (placeholder : Js.str).

Record question := {
  id : Js.str;
  prompt : Js.str;
  kind : question_type
}.

Definition QUESTIONS : list question :=
[
  {| id := js "enjoyable";
     prompt := js "What would you find most enjoyable in a book?";
     kind :=
      Choice
      [ js "An adventure story that takes a dark turn";
        js "An epic drama with a hero whose life you follow from beginning to end";
        js "A compulsive plot with sophisticated twists";
        js "A sharply observed portrait of the relationship between two young lovers";
        js "A complex story about the secrets kept in a small community";
        js "A classic coming-of-age story with a protagonist who struggles with mental health";
        js "An eerie, nightmarish tale of a Britain gripped by an unnamed oppressive political movement";
        js "A sensitive, complicated character looks back on life and what might have been" ] |};
  {| id := js "holiday_1";
     prompt := js "Given the chance, how would you choose to spend your holidays this year?";
     kind :=
      Choice
      [ js "On an island somewhere tropical with plenty of jungle to explore";
        js "On a road trip across the USA, racing along a highway in a convertible";
        js "At a faded luxury hotel somewhere in Europe - a modern day Grand Budapest Hotel";
        js "Interrailing around southern Europe, and not just to the tourist hotspots";
        js "Somewhere rural, with a village pub and plenty of paths along which to hike";
        js "In New York, with a hotel just near Central Park";
        js "In an English seaside town, with cream teas and windswept beaches";
        js "In the English countryside in high summer" ] |};
  {| id := js "dinner_party";
     prompt := js "Who would be the first name on the invitation to your fantasy dinner party?";
     kind :=
      Choice
      [ js "Stephen King";
        js "David Attenborough";
        js "Charles Dickens";
        js "Ali Smith";
        js "Madonna";
        js "James Baldwin";
        js "Audre Lorde";
        js "Maria Callas";
        js "Mike Tyson";
        js "Tom Brady";
        js "Shanon Sharpe";
        js "Skip Bayless";
        js "Sabrina Carpenter";
        js "Taylor Swift";
        js "Lebron James";
        js "Terrel Owens";
        js "Chad Ochocinco" ] |};
  {| id := js "resolution";
     prompt := js "What did you resolve to change this year?";
     kind :=
      Choice
      [ js "To spend more time appreciating the magic of the everyday";
        js "To make the world a better place in whatever small way I can";
        js "To get out into the world, travel and have some fun";
        js "To learn more about forgotten histories and political activism";
        js "To make time to read my subscription to The New Yorker";
        js "To keep up with current affairs";
        js "To go on an adventure and take more risks";
        js "To head to the library more often, and to read more books" ] |};
  {| id := js "writing_style";
     prompt := js "Which type of writing most appeals to you?";
     kind :=
      Choice
      [ js "A pacy narrative with twists and turns";
        js "Heartbreaking prose and a story driven by character development";
        js "All about the action: a fast-moving plot above all";
        js "Prose that is rooted in the twenty-first century and how we live our lives";
        js "Haunting and restrained literary prose";
        js "Conversational, informal first-person narrative";
        js "Strange, haunting and otherworldly, conjured with few words";
        js "First person narrative - but can you trust the narrator?" ] |};
  {| id := js "fiction_pref";
     prompt := js "Do you prefer fiction or nonfiction?";
     kind :=
      Choice
      [ js "Fiction";
        js "Nonfiction" ] |};
  {| id := js "genre";
     prompt := js "Which fiction genre are you looking to read next?";
     kind :=
      Choice
      [ js "General Fiction";
        js "Historical Fiction";
        js "Romance";
        js "Mystery & Thriller";
        js "Science Fiction & Fantasy" ] |};
  {| id := js "last_book";
     prompt := js "Tell us the title of the last book you loved";
     kind :=
      Text (js "Type the title here") |};
  {| id := js "length_pref";
     prompt := js "Do you prefer long reads or short books?";
     kind :=
      Choice
      [ js "Long reads";
        js "Short reads";
        js "No preference" ] |};
  {| id := js "classic_pref";
     prompt := js "Do you like classic or contemporary fiction?";
     kind :=
      Choice
      [ js "Classic";
        js "Contemporary" ] |};
  {| id := js "care_about";
     prompt := js "When reading you care most about:";
     kind :=
      Choice
      [ js "The characters";
        js "The dialogue";
        js "The romance";
        js "Learning new things";
        js "Escaping to a new world";
        js "Switching off" ] |}
].

Definition total : nat := length QUESTIONS.

Record state := mk {
  step : nat;
  answers : list Js.str;
  globalRec : option best_match;
  localRec : option best_match;
  message : Js.str;
  isSubmitting : bool;
  showResults : bool
}.

(** [useState(() => QUESTIONS.map(() => ""))] *)
Definition initial : state :=
  mk 0 (map (fun _ => []) QUESTIONS) None None [] false false.

Definition setStep v : handler state unit :=
  update (fun s => mk v (answers s) (globalRec s) (localRec s) (message s) (isSubmitting s) (showResults s)).
Definition setAnswers (f : list Js.str -> list Js.str) : handler state unit :=
  update (fun s => mk (step s) (f (answers s)) (globalRec s) (localRec s) (message s) (isSubmitting s) (showResults s)).
Definition setGlobalRec v : handler state unit :=
  update (fun s => mk (step s) (answers s) v (localRec s) (message s) (isSubmitting s) (showResults s)).
Definition setLocalRec v : handler state unit :=
  update (fun s => mk (step s) (answers s) (globalRec s) v (message s) (isSubmitting s) (showResults s)).
Definition setMessage v : handler state unit :=
  update (fun s => mk (step s) (answers s) (globalRec s) (localRec s) v (isSubmitting s) (showResults s)).
Definition setIsSubmitting v : handler state unit :=
  update (fun s => mk (step s) (answers s) (globalRec s) (localRec s) (message s) v (showResults s)).
Definition setShowResults v : handler state unit :=
  update (fun s => mk (step s) (answers s) (globalRec s) (localRec s) (message s) (isSubmitting s) v).

(** [next[step] = value] on a copy of the array: in range the slot is
    replaced; past the end JavaScript extends the array, the holes reading
    as [undefined], which every read here turns into [""]. *)
Definition array_set (i : nat) (value : Js.str) (arr : list Js.str)
  : list Js.str :=
  if decide (i < length arr)%nat then <[i := value]> arr
  else arr ++ replicate (i - length arr) [] ++ [value].

(** [answers[index] || ""] *)
Definition answer_at (answers : list Js.str) (index : nat) : Js.str :=
  default [] (answers !! index).

Definition current (s : state) : option question := QUESTIONS !! step s.
Definition currentAnswer (s : state) : Js.str := answer_at (answers s) (step s).

Definition updateAnswer (value : Js.str) : handler state unit :=
  step ← get step;
  setAnswers (fun prev => array_set step value prev);;
  setGlobalRec None;;
  setLocalRec None;;
  setShowResults false;;
  message ← get message;
  if Js.truthy message then setMessage [] else skip.

Definition canProceed (s : state) : bool :=
  match current s with
  | None => false
  | Some q =>
      match kind q with
      | Text _ => bool_decide (0 < length (Js.trim (currentAnswer s)))%nat
      | Choice _ => negb (bool_decide (currentAnswer s = []))
      end
  end.

(** One entry per question: ["prompt answer"], or [""] when the trimmed
    answer is empty. *)
Definition query_part (answers : list Js.str) (index : nat) (q : question)
  : Js.str :=
  let answer := Js.trim (answer_at answers index) in
  if negb (Js.truthy answer) then []
  else prompt q ++ js " " ++ answer.

(** [QUESTIONS.map(..).filter(Boolean).join(" . ")] *)
Definition buildQuery (answers : list Js.str) : Js.str :=
  Js.join (js " . ")
    (filter (fun part => Js.truthy part = true)
       (imap (query_part answers) QUESTIONS)).

(** The query as the quiz describes it: going through the questions in
    order, each question whose answer is not blank contributes its prompt,
    a space and the trimmed answer; the contributions are joined by
    [" . "]. *)
Fixpoint answered_from (index : nat) (qs : list question)
    (answers : list Js.str) : list (question * Js.str) :=
  match qs with
  | [] => []
  | q :: rest =>
      let answer := Js.trim (answer_at answers index) in
      if bool_decide (answer = [])
      then answered_from (S index) rest answers
      else (q, answer) :: answered_from (S index) rest answers
  end.

Definition described_query (answers : list Js.str) : Js.str :=
  Js.join (js " . ")
    (map (fun '(q, answer) => prompt q ++ js " " ++ answer)
       (answered_from 0 QUESTIONS answers)).

Definition unanswered_message : Js.str :=
  js "Please answer the questions before submitting.".

Definition submitRecommendations : handler state unit :=
  isSubmitting ← get isSubmitting;
  if (isSubmitting : bool) then skip
  else
    queryText ← get (fun s => buildQuery (answers s));
    if negb (Js.truthy queryText) then setMessage unanswered_message
    else
      setIsSubmitting true;;
      setMessage [];;
      setGlobalRec None;;
      setLocalRec None;;
      setShowResults false;;
      emit (Fetch (Http.mk Http.POST Http.ApiRecommendations
                     Http.json_headers (Http.JsonQuery queryText))).

Definition wake_up_hint : Js.str :=
  js "Backend may be waking up. If you're using Render's free tier, wait 30-60 seconds and try again.".

(** The [.then], [.catch] and [.finally] callbacks of the request, run in
    that order once it settles. *)
Definition onRecommendationsSettled (r : Http.settled recommendations)
  : handler state unit :=
  match r with
  | Http.Fulfilled data =>
      setGlobalRec (global data);;
      setLocalRec (local data);;
      setShowResults true
  | Http.Rejected =>
      setMessage wake_up_hint;;
      setShowResults false
  end;;
  setIsSubmitting false.

Definition goNext : handler state unit :=
  proceed ← get canProceed;
  if negb (proceed : bool) then
    current ← get current;
    setMessage
      match current with
      | Some {| kind := Text _ |} => js "Please enter a response to continue."
      | _ => js "Please choose an option to continue."
      end
  else
    setMessage [];;
    step ← get step;
    if decide (step < total - 1)%nat then setStep (step + 1)%nat
    else submitRecommendations.

Definition goBack : handler state unit :=
  step ← get step;
  if decide (0 < step)%nat then
    setStep (step - 1)%nat;;
    setMessage []
  else skip.

Definition handleFormSubmit : handler state unit :=
  emit PreventDefault;;
  goNext.

(** [disabled] of the submit button. *)
Definition submit_disabled (s : state) : bool :=
  negb (canProceed s) || isSubmitting s.

(** The block below the form, rendered only when [showResults]. *)
Definition render_results (s : state) : option results_view :=
  if showResults s
  then Some {| global_view := show_global (globalRec s);
               local_view := show_local (localRec s);
               warning := negb (bool_decide (is_Some (globalRec s)))
                          && negb (bool_decide (is_Some (localRec s))) |}
  else None.

(** *** The page over time

    JavaScript runs one handler at a time; between two events React has
    rendered, so each handler closes over the state the previous one left.
    A world is the component state together with the recommendation
    requests that have been sent and have not settled yet (each with the
    query it carries) and the query whose reply was last put on display. *)
Record world := {
  ui : state;
  in_flight : list Js.str;
  shown_for : option Js.str
}.

Definition initial_world : world :=
  {| ui := initial; in_flight := []; shown_for := None |}.

(** [Submit] stands for a direct call of [submitRecommendations]; the page
    itself reaches it through [Next] only. *)
Inductive event :=
| Answer (value : Js.str)
| Next
| Back
| Submit
| Settle (i : nat) (r : Http.settled recommendations).

Definition sent_queries (es : list effect) : list Js.str :=
  omap (fun r =>
          match Http.payload r with
          | Http.JsonQuery q => Some q
          | _ => None
          end) (requests es).

Definition dispatch (h : handler state unit) (w : world) : world :=
  let '(s', es) := run h (ui w) in
  {| ui := s';
     in_flight := in_flight w ++ sent_queries es;
     shown_for := shown_for w |}.

Definition step_world (w : world) (ev : event) : world :=
  match ev with
  | Answer value => dispatch (updateAnswer value) w
  | Next => dispatch handleFormSubmit w
  | Back => dispatch goBack w
  | Submit => dispatch submitRecommendations w
  | Settle i r =>
      match in_flight w !! i with
      | None => w
      | Some q =>
          let '(s', es) := run (onRecommendationsSettled r) (ui w) in
          {| ui := s';
             in_flight := delete i (in_flight w) ++ sent_queries es;
             shown_for := match r with
                          | Http.Fulfilled _ => Some q
                          | Http.Rejected => shown_for w
                          end |}
      end
  end.

Definition run_events (w : world) (evs : list event) : world :=
  fold_left step_world evs w.

Inductive reachable : world -> Prop :=
| reachable_initial : reachable initial_world
| reachable_step w ev : reachable w -> reachable (step_world w ev).

(** What a handler may do to the submission flag: leave it alone and send
    nothing, or, from the idle state, raise it and send one request. *)
Definition guarded (h : handler state unit) : Prop :=
  forall s,
    (isSubmitting (run h s).1 = isSubmitting s
     /\ sent_queries (run h s).2 = [])
    \/ (isSubmitting s = false
        /\ isSubmitting (run h s).1 = true
        /\ exists q, sent_queries (run h s).2 = [q]).

(** While the flag is down nothing is out; while it is up at most one
    request is. *)
Definition at_most_one (w : world) : Prop :=
  if isSubmitting (ui w) then (length (in_flight w) <= 1)%nat
  else in_flight w = [].

(** What the rendered page lets the user do: press an offered choice or
    type into the text input, press an enabled button; a request that is
    out can settle. *)
Definition enabled (w : world) (ev : event) : bool :=
  match ev with
  | Answer value =>
      match current (ui w) with
      | Some q =>
          match kind q with
          | Choice options => bool_decide (value ∈ options)
          | Text _ => true
          end
      | None => false
      end
  | Next => negb (submit_disabled (ui w))
  | Back => negb (bool_decide (step (ui w) = 0%nat))
  | Submit => false
  | Settle i _ => bool_decide (is_Some (in_flight w !! i))
  end.

Fixpoint feasible (w : world) (evs : list event) : bool :=
  match evs with
  | [] => true
  | ev :: rest => enabled w ev && feasible (step_world w ev) rest
  end.

(** The recommendations on display answer the query that the current
    answers build. *)
Definition up_to_date (w : world) : Prop :=
  showResults (ui w) = true ->
  shown_for w = Some (buildQuery (answers (ui w))).

(** A session: every question answered with its first choice ("Dune" for
    the text question), the quiz submitted, then, before the reply arrives,
    another choice pressed on the last question. *)
Definition first_answer (q : question) : Js.str :=
  match kind q with
  | Choice options => default [] (head options)
  | Text _ => js "Dune"
  end.

Definition fill_in_and_submit : list event :=
  flat_map (fun q => [Answer (first_answer q); Next]) QUESTIONS.

(** The page once the filled-in quiz has been submitted and the request is
    out. *)
Definition submitted_world : world :=
  run_events initial_world fill_in_and_submit.

Definition dune : best_match :=
  {| bm_title := js "Dune"; bm_author := js "Frank Herbert";
     bm_year := Some 1965%Z |}.

Definition late_edit_session : list event :=
  fill_in_and_submit
  ++ [Answer (js "The dialogue");
      Settle 0 (Http.Fulfilled {| global := Some dune; local := None |})].

End Quiz.

(** ** The backend

    [backend/server.py] (review store, catalog, TF-IDF engine) is not among
    the sources at hand; what follows is written from sections 3, 4, 6 and 7
    of the specification. *)

Module Backend.

(** Modelled from the spec: the backend's validation is missing; this is
    the error taxonomy of section 7, where a validation error names the
    invalid field or range. *)
Inductive invalid :=
| EmptyAuthor
| EmptyTitle
| EmptyContent
| ScoreOutOfRange
| ImageTooLarge
| ImageTypeNotAllowed.

(** Modelled from the spec: the backend's error replies are missing; the
    error taxonomy of section 7. *)
Inductive error :=
| ValidationError (why : invalid)
| AuthError
| NotFoundError
| EmptyQueryError.

(** Modelled from the spec: the backend's operations are missing; each
    returns its value or fails with one of the errors. *)
Inductive result (A : Type) :=
| Ok (a : A)
| Err (e : error).
Arguments Ok {A} a.
Arguments Err {A} e.

(** Modelled from the spec: the backend's image handling is missing; the
    optional cover image is a binary blob with a content type. *)
Record image := { content_type : Js.str; blob : list N }.

(** Modelled from the spec: the backend's review table is missing; the
    Review of section 3. *)
Record Review := {
  id : Z;
  author : Js.str;
  title : Js.str;
  content : Js.str;
  score : Z;
  cover_image : option image;
  created_at : N
}.

(** Modelled from the spec: the backend's catalog loader is missing; the
    CatalogEntry of section 3. *)
Record CatalogEntry := {
  c_title : Js.str;
  c_author : Js.str;
  c_year : Z;
  c_text : Js.str
}.

(** Modelled from the spec: the backend's database is missing; the Review
    Store of section 4.1: the rows in insertion order, the next id to assign
    (ids are never reused) and the configured delete passcode, if any. *)
Record ReviewStore := {
  rows : list Review;
  next_id : Z;
  delete_passcode : option Js.str
}.

Section Store.

(** Modelled from the spec: the backend's configuration is missing; the
    maximum image size and the allowed content types, which the
    specification leaves to configuration. *)
Variable max_image_size : nat.
Variable allowed_types : list Js.str.

(** Modelled from the spec: the backend's score check is missing; "score
    is not an integer in [0,10]"; [None] stands for a score that is not an
    integer at all. *)
Definition valid_score (score : option Z) : option Z :=
  match score with
  | Some z => if bool_decide (0 <= z <= 10)%Z then Some z else None
  | None => None
  end.

(** Modelled from the spec: the backend's image check is missing; "an
    optional image exceeds a maximum size or has a disallowed content
    type". *)
Definition check_image (img : option image) : option invalid :=
  match img with
  | None => None
  | Some i =>
      if bool_decide (max_image_size < length (blob i))%nat
      then Some ImageTooLarge
      else if bool_decide (content_type i ∈ allowed_types) then None
      else Some ImageTypeNotAllowed
  end.

(** Modelled from the spec: the backend's review creation is missing;
    [submit] of section 4.1 trims the text fields, validates, and on success
    persists the row under the next id. *)
Definition submit (author title content : Js.str) (score : option Z)
    (img : option image) (now : N) (st : ReviewStore)
  : result Review * ReviewStore :=
  let author := Js.trim author in
  let title := Js.trim title in
  let content := Js.trim content in
  if negb (Js.truthy author) then (Err (ValidationError EmptyAuthor), st)
  else if negb (Js.truthy title) then (Err (ValidationError EmptyTitle), st)
  else if negb (Js.truthy content) then (Err (ValidationError EmptyContent), st)
  else
    match valid_score score with
    | None => (Err (ValidationError ScoreOutOfRange), st)
    | Some z =>
        match check_image img with
        | Some why => (Err (ValidationError why), st)
        | None =>
            let r := {| id := next_id st; author := author; title := title;
                        content := content; score := z; cover_image := img;
                        created_at := now |} in
            (Ok r, {| rows := rows st ++ [r];
                      next_id := (next_id st + 1)%Z;
                      delete_passcode := delete_passcode st |})
        end
    end.

(** Modelled from the spec: the backend's review feed is missing; [list]
    of section 4.1, most recent first. *)
Definition list_reviews (st : ReviewStore) : list Review := rev (rows st).

(** Modelled from the spec: the backend's review deletion is missing;
    [delete] of sections 4.1 and 6: without a configured passcode every
    attempt is an [AuthError]. *)
Definition delete_review (review_id : Z) (presented : Js.str)
    (st : ReviewStore) : result unit * ReviewStore :=
  match delete_passcode st with
  | None => (Err AuthError, st)
  | Some secret =>
      if negb (bool_decide (presented = secret)) then (Err AuthError, st)
      else if bool_decide (Exists (fun r => id r = review_id) (rows st))
      then (Ok tt, {| rows := filter (fun r => id r <> review_id) (rows st);
                      next_id := next_id st;
                      delete_passcode := delete_passcode st |})
      else (Err NotFoundError, st)
  end.

End Store.

Section Engine.

(** Modelled from the spec: the backend's TF-IDF code is missing; the
    vectorisation (tokenising, case folding, stop words, TF-IDF weights) is
    an implementation choice of section 4.2; only its shape is fixed: a
    vocabulary fitted on a corpus, the same vocabulary used for items and
    queries, and a cosine score. *)
Variable vocabulary : Type.
Variable vector : Type.
Variable fit : list Js.str -> vocabulary.
Variable vectorize : vocabulary -> Js.str -> vector.
Variable cosine : vector -> vector -> Q.

(** Modelled from the spec: the backend's configuration is missing; the
    configured minimum number of reviews for a local recommendation, and
    the limits of [submit]. *)
Variable min_reviews : nat.
Variable max_image_size : nat.
Variable allowed_types : list Js.str.

(** Modelled from the spec: the backend's index is missing; the
    SimilarityIndex of section 3. *)
Record SimilarityIndex (item : Type) := {
  vocab : vocabulary;
  vectors : list (item * vector)
}.
Arguments vocab {item} _.
Arguments vectors {item} _.

(** Modelled from the spec: the backend's index construction is missing;
    [build_index] of section 4.2. *)
Definition build_index {item} (text : item -> Js.str) (items : list item)
  : SimilarityIndex item :=
  let v := fit (map text items) in
  {| vocab := v; vectors := map (fun x => (x, vectorize v (text x))) items |}.

(** Modelled from the spec: the backend's text synthesis is missing; the
    indexed text of a catalog entry is "title + author + descriptive
    text". *)
Definition catalog_text (c : CatalogEntry) : Js.str :=
  c_title c ++ js " " ++ c_author c ++ js " " ++ c_text c.

(** Modelled from the spec: the backend's text synthesis is missing; the
    indexed text of a review is "title + author + content". *)
Definition review_text (r : Review) : Js.str :=
  title r ++ js " " ++ author r ++ js " " ++ content r.

(** Modelled from the spec: the backend's ranking is missing; step 3 of
    the algorithm: the highest score wins, and among equal scores the first
    inserted. *)
Definition keep_best {item} (best : option (item * Q)) (c : item * Q)
  : option (item * Q) :=
  match best with
  | None => Some c
  | Some b => if Qle_bool (snd c) (snd b) then Some b else Some c
  end.

(** Modelled from the spec: the backend's ranking is missing; steps 1 to 4
    for one corpus: vectorise the query with the corpus vocabulary, score
    every item, keep the best, and return nothing when the best score is
    exactly zero. *)
Definition best_of {item} (idx : SimilarityIndex item) (query_text : Js.str)
  : option item :=
  let qv := vectorize (vocab idx) query_text in
  match fold_left keep_best
          (map (fun '(x, v) => (x, cosine qv v)) (vectors idx)) None with
  | Some (x, s) => if Qeq_bool s 0 then None else Some x
  | None => None
  end.

(** Modelled from the spec: the backend's process state is missing; the
    engine instance of section 9 with its owned handles: the store, the
    catalog with its index (absent when the dataset is), and the cached
    index of the local corpus. *)
Record engine := {
  store : ReviewStore;
  catalog : list CatalogEntry;
  global_index : option (SimilarityIndex CatalogEntry);
  local_cache : option (SimilarityIndex Review)
}.

(** Modelled from the spec: the backend's start-up is missing; at the
    start of the process the catalog is loaded and indexed once; an absent
    source gives an empty catalog and no index. *)
Definition start (source : option (list CatalogEntry))
    (passcode : option Js.str) : engine :=
  {| store := {| rows := []; next_id := 1%Z; delete_passcode := passcode |};
     catalog := default [] source;
     global_index := build_index catalog_text <$> source;
     local_cache := None |}.

(** Modelled from the spec: the backend's cache invalidation is missing;
    the store is replaced and the cached local index dropped. *)
Definition with_store (e : engine) (st : ReviewStore) : engine :=
  {| store := st; catalog := catalog e; global_index := global_index e;
     local_cache := None |}.

(** Modelled from the spec: the backend's review creation is missing;
    [submit_review] of section 6; a successful one invalidates the cached
    local index. *)
Definition submit_review (author title content : Js.str) (score : option Z)
    (img : option image) (now : N) (e : engine) : result Review * engine :=
  match submit max_image_size allowed_types author title content score
          img now (store e) with
  | (Ok r, st) => (Ok r, with_store e st)
  | (Err err, _) => (Err err, e)
  end.

(** Modelled from the spec: the backend's review deletion is missing;
    [delete_review] of section 6; a successful one invalidates the cached
    local index. *)
Definition remove_review (review_id : Z) (presented : Js.str) (e : engine)
  : result unit * engine :=
  match delete_review review_id presented (store e) with
  | (Ok u, st) => (Ok u, with_store e st)
  | (Err err, _) => (Err err, e)
  end.

(** Modelled from the spec: the backend's reply building is missing; a
    BestMatch carries the display fields only: title, author and year for
    the global side. *)
Definition global_match (c : CatalogEntry) : best_match :=
  {| bm_title := c_title c; bm_author := c_author c;
     bm_year := Some (c_year c) |}.

(** Modelled from the spec: the backend's reply building is missing; the
    local BestMatch carries title and author. *)
Definition local_match (r : Review) : best_match :=
  {| bm_title := title r; bm_author := author r; bm_year := None |}.

(** Modelled from the spec: the backend's local lookup is missing; the
    local side of [recommend]: nothing below the minimum number of reviews;
    otherwise the cached index, rebuilt from the store when there is
    none. *)
Definition recommend_local (query_text : Js.str) (e : engine)
  : option Review * option (SimilarityIndex Review) :=
  if bool_decide (length (rows (store e)) < min_reviews)%nat
  then (None, local_cache e)
  else
    let idx := default (build_index review_text (rows (store e)))
                 (local_cache e) in
    (best_of idx query_text, Some idx).

(** Modelled from the spec: the backend's recommendation lookup is
    missing; [recommend] of section 4.4. *)
Definition recommend (query_text : Js.str) (e : engine)
  : result recommendations * engine :=
  if negb (Js.truthy (Js.trim query_text)) then (Err EmptyQueryError, e)
  else
    let g := global_index e ≫= fun idx => best_of idx query_text in
    let '(l, cache) := recommend_local query_text e in
    (Ok {| global := global_match <$> g; local := local_match <$> l |},
     {| store := store e; catalog := catalog e;
        global_index := global_index e; local_cache := cache |}).

(** The derived indices agree with what they are derived from: the
    cached local index, when there is one, is the index of the store's
    current rows; the global index is the index of the catalog, and is
    absent only when the catalog is empty. *)
Definition coherent (e : engine) : Prop :=
  match local_cache e with
  | None => True
  | Some idx => idx = build_index review_text (rows (store e))
  end
  /\ match global_index e with
     | None => catalog e = []
     | Some idx => idx = build_index catalog_text (catalog e)
     end.

(** Modelled from the spec: the backend's request handling is missing;
    [decode_image] is how the API surface of section 2 turns the data URL
    sent by the client into the blob. *)
Variable decode_image : Js.str -> image.

(** Modelled from the spec: the backend's request handling is missing; a
    review creation request is [submit_review] on the payload's fields. *)
Definition post_review (p : Payload.t) (now : N) (e : engine)
  : result Review * engine :=
  submit_review (Payload.author p) (Payload.title p) (Payload.content p)
    (Payload.score p) (decode_image <$> Payload.image p) now e.

End Engine.

Arguments vocab {vocabulary vector item} _.
Arguments vectors {vocabulary vector item} _.
Arguments build_index {vocabulary vector} fit vectorize {item} text items.
Arguments best_of {vocabulary vector} vectorize cosine {item} idx query_text.
Arguments store {vocabulary vector} _.
Arguments catalog {vocabulary vector} _.
Arguments global_index {vocabulary vector} _.
Arguments local_cache {vocabulary vector} _.
Arguments start {vocabulary vector} fit vectorize source passcode.
Arguments with_store {vocabulary vector} e st.
Arguments submit_review {vocabulary vector} max_image_size allowed_types
  author title content score img now e.
Arguments remove_review {vocabulary vector} review_id presented e.
Arguments recommend_local {vocabulary vector} fit vectorize cosine
  min_reviews query_text e.
Arguments recommend {vocabulary vector} fit vectorize cosine min_reviews
  query_text e.
Arguments coherent {vocabulary vector} fit vectorize e.
Arguments post_review {vocabulary vector} max_image_size allowed_types
  decode_image p now e.

End Backend.

(** ** A small configuration for examples *)

Module Sample.

(** A stand-in vectoriser: the text is its own vector and two vectors
    score 1 when they are equal, 0 otherwise. *)
Definition fit (corpus : list Js.str) : unit := tt.
Definition vectorize (v : unit) (text : Js.str) : Js.str := text.
Definition cosine (a b : Js.str) : Q := if bool_decide (a = b) then 1 else 0.

Definition min_reviews : nat := 3.
Definition max_image_size : nat := 4096.
Definition allowed_types : list Js.str := [js "image/png"; js "image/jpeg"].
Definition decode_image (data_url : Js.str) : Backend.image :=
  {| Backend.content_type := js "image/png"; Backend.blob := data_url |}.

Definition dune_entry : Backend.CatalogEntry :=
  {| Backend.c_title := js "Dune"; Backend.c_author := js "Frank Herbert";
     Backend.c_year := 1965;
     Backend.c_text := js "desert planet epic science fiction adventure" |}.

(** An engine just started on a one-book catalog, and the same engine
    after one accepted review. *)
Definition fresh : Backend.engine unit Js.str :=
  Backend.start fit vectorize (Some [dune_entry]) (Some (js "s3cret")).

Definition one_review : Backend.engine unit Js.str :=
  (Backend.submit_review max_image_size allowed_types (js "A. Lee")
     (js "Quiet Nights") (js "a slow, melancholic literary drama")
     (Some 7%Z) None 0 fresh).2.

End Sample.

(** ** Page configuration *)

Module Config.

Definition default_base : Js.str := js "http://localhost:8000".

(** [value || fallback] on a string property of [window]: [None] when the
    property is not set; the empty string is falsy as well. *)
Definition or_default (value : option Js.str) (fallback : Js.str) : Js.str :=
  match value with
  | Some v => if Js.truthy v then v else fallback
  | None => fallback
  end.

(** [s.replace(/\/$/, "")]: without the [m] flag [$] matches at the end of
    the input only, so one slash is removed when it is the last code
    unit. *)
Fixpoint strip_trailing_slash (s : Js.str) : Js.str :=
  match s with
  | [] => []
  | c :: r =>
      match r with
      | [] => if c =? 47 then [] else [c]
      | _ :: _ => c :: strip_trailing_slash r
      end
  end.

(** [(window.BOOK_API_BASE || "http://localhost:8000").replace(/\/$/, "")] *)
Definition API_BASE (BOOK_API_BASE : option Js.str) : Js.str :=
  strip_trailing_slash (or_default BOOK_API_BASE default_base).

End Config.

(** ** Sessions of the quiz page *)

Module Session.

Import Quiz.

(** The step points at a question and there is one answer slot per
    question. *)
Definition in_range (s : state) : Prop :=
  (step s < total)%nat /\ length (answers s) = total.

(** The submission flag counts the requests that are out. *)
Definition tracked (w : world) : Prop :=
  length (in_flight w) = if isSubmitting (ui w) then 1%nat else 0%nat.

(** The answer to a choice question is empty or one of its options. *)
Definition offered (answers : list Js.str) : Prop :=
  forall i q options,
    QUESTIONS !! i = Some q -> kind q = Choice options ->
    answer_at answers i = [] \/ answer_at answers i ∈ options.

(** Every question before the current one has an answer that is not
    blank. *)
Definition answered_before (s : state) : Prop :=
  forall i, (i < step s)%nat -> Js.trim (answer_at (answers s) i) <> [].

(** A query built from answers none of which is blank. *)
Definition complete_query (q : Js.str) : Prop :=
  exists answers,
    q = buildQuery answers
    /\ forall i, (i < total)%nat -> Js.trim (answer_at answers i) <> [].

(** What holds along the sessions the rendered page allows. *)
Definition sound (w : world) : Prop :=
  in_range (ui w)
  /\ offered (answers (ui w))
  /\ answered_before (ui w)
  /\ (forall q, q ∈ in_flight w -> complete_query q)
  /\ message (ui w) <> unanswered_message.

(** A handler that leaves the answers alone, never puts results on display
    and sends at most the query of the current answers. *)
Definition quiet (h : handler state unit) : Prop :=
  forall s,
    answers (run h s).1 = answers s
    /\ (showResults (run h s).1 = true -> showResults s = true)
    /\ forall q, q ∈ sent_queries (run h s).2 -> q = buildQuery (answers s).

(** Every request that is out carries the query of the current answers. *)
Definition current_queries (w : world) : Prop :=
  forall q, q ∈ in_flight w -> q = buildQuery (answers (ui w)).

(** A session in which no answer is edited while a request is out. *)
Fixpoint calm (w : world) (evs : list event) : bool :=
  match evs with
  | [] => true
  | ev :: rest =>
      match ev with
      | Answer _ => bool_decide (in_flight w = [])
      | _ => true
      end && calm (step_world w ev) rest
  end.

(** The quiz answered up to its last question, whose submit button has
    not been pressed yet. *)
Definition filled_in_session : list event :=
  take (length fill_in_and_submit - 1) fill_in_and_submit.

(** A review form whose score field reads 1e5. *)
Definition exponent_score_form : Blog.state :=
  Blog.mk [] (js "A. Lee") (js "Quiet Nights") (js "a slow drama")
    (js "1e5") None [] [].

(** The first option of the first question. *)
Definition first_answer_of_quiz : Js.str :=
  js "An adventure story that takes a dark turn".

(** The first question answered and Next pressed. *)
Definition one_answer_session : list event :=
  [Answer first_answer_of_quiz; Next].

(** The filled-in quiz, submitted and answered by the backend. *)
Definition answered_session : list event :=
  fill_in_and_submit
  ++ [Settle 0 (Http.Fulfilled {| global := Some dune; local := None |})].

End Session.

(** ** Strings that need no trimming *)

Module Ends.

(** The first code unit is not white space. *)
Definition starts_visible (s : Js.str) : Prop :=
  exists c, head s = Some c /\ Js.is_white_space c = false.

(** The last code unit is not white space. *)
Definition ends_visible (s : Js.str) : Prop :=
  exists c, list.last s = Some c /\ Js.is_white_space c = false.

(** A decimal digit, as a code unit. *)
Definition is_digit (c : N) : Prop := 48 <= c <= 57.

(** The value of a digit code unit. *)
Definition digit_of (c : N) : Z := Z.of_N (c - 48).

(** A filled-in review form whose score field reads 7.9, with a cover
    picked. *)
Definition fractional_score_form : Blog.state :=
  Blog.mk [] (js "A. Lee") (js "Quiet Nights") (js "a slow drama")
    (js "7.9") (Some {| file_type := js "image/png"; file_bytes := [137; 80] |})
    [] [].

(** The query that a recommendation request carries, if it is one. *)
Definition query_of (r : Http.request) : option Js.str :=
  match Http.payload r with
  | Http.JsonQuery q => Some q
  | _ => None
  end.

End Ends.

(** * Properties *)

(** Unfolds the plumbing of a handler, leaving its reads and tests. *)
Ltac run_handler :=
  cbv beta iota zeta delta
    [run mbind mret handler_bind handler_ret get update emit skip].

(** ** Trimming and parsing, on examples *)

Example trim_example : Js.trim (js "  Dune	 ") = js "Dune".
Proof. reflexivity. Qed.

Example trim_blank_example : Js.trim (js " 	 ") = [].
Proof. reflexivity. Qed.

Example parseInt_examples :
  Js.parseInt10 (js "11") = Some 11%Z
  /\ Js.parseInt10 (js " -3.7") = Some (-3)%Z
  /\ Js.parseInt10 (js "1e5") = Some 1%Z
  /\ Js.parseInt10 (js "0x1A") = Some 0%Z
  /\ Js.parseInt10 (js "") = None
  /\ Js.parseInt10 (js "abc") = None.
Proof. repeat split; reflexivity. Qed.

Example buildQuery_example :
  Quiz.buildQuery [js " Fiction "; []; js "Ali Smith"]
  = js "What would you find most enjoyable in a book? Fiction . Who would be the first name on the invitation to your fantasy dinner party? Ali Smith".
Proof. vm_compute. reflexivity. Qed.

(** ** Trimming *)

Section TrimFacts.

Implicit Types (s : Js.str) (c : N).

Lemma trim_start_split s :
  exists pre, s = pre ++ Js.trim_start s /\ Js.blank pre.
Proof.
  induction s as [|c r [pre [Heq Hpre]]]; simpl.
  - exists []. split; [reflexivity | constructor].
  - destruct (Js.is_white_space c) eqn:Hc.
    + exists (c :: pre). split; [simpl; congruence | by constructor].
    + exists []. split; [reflexivity | constructor].
Qed.

Lemma trim_start_head s c r :
  Js.trim_start s = c :: r -> Js.is_white_space c = false.
Proof.
  induction s as [|d t IH]; simpl; [discriminate |].
  destruct (Js.is_white_space d) eqn:Hd; [exact IH |].
  intros [= -> _]. exact Hd.
Qed.

Lemma trim_start_blank s : Js.trim_start s = [] <-> Js.blank s.
Proof.
  induction s as [|c r IH]; simpl.
  - split; [constructor | reflexivity].
  - destruct (Js.is_white_space c) eqn:Hc.
    + rewrite IH. split; [by constructor | by inversion 1].
    + split; [discriminate |]. inversion 1; congruence.
Qed.

Lemma trim_start_snoc s c :
  Js.is_white_space c = false ->
  Js.trim_start (s ++ [c]) = Js.trim_start s ++ [c].
Proof.
  intros Hc. induction s as [|d t IH]; simpl.
  - by rewrite Hc.
  - destruct (Js.is_white_space d); [exact IH | reflexivity].
Qed.

Lemma trim_end_cons s c :
  Js.is_white_space c = false -> Js.trim_end (c :: s) = c :: Js.trim_end s.
Proof.
  intros Hc. unfold Js.trim_end. simpl.
  rewrite trim_start_snoc by exact Hc.
  by rewrite rev_app_distr.
Qed.

Lemma trim_end_split s :
  exists post, s = Js.trim_end s ++ post /\ Js.blank post.
Proof.
  destruct (trim_start_split (rev s)) as [pre [Heq Hpre]].
  exists (rev pre). split.
  - unfold Js.trim_end. rewrite <- rev_app_distr, <- Heq.
    by rewrite rev_involutive.
  - by apply Forall_rev.
Qed.

Lemma trim_end_last s r c :
  Js.trim_end s = r ++ [c] -> Js.is_white_space c = false.
Proof.
  unfold Js.trim_end. intros H.
  apply (f_equal (@rev N)) in H.
  rewrite rev_involutive, rev_app_distr in H. simpl in H.
  by apply trim_start_head in H.
Qed.

(** [s.trim()] is [s] without its leading and trailing white space. *)
Lemma trim_spec s : Js.trimmed_of s (Js.trim s).
Proof.
  destruct (trim_start_split s) as [pre [Hs Hpre]].
  destruct (trim_end_split (Js.trim_start s)) as [post [Ht Hpost]].
  exists pre, post. unfold Js.trim. repeat split; try assumption.
  - by rewrite <- Ht.
  - intros c r H.
    destruct (Js.trim_start s) as [|d t] eqn:E; [discriminate |].
    pose proof (trim_start_head _ _ _ E) as Hd.
    rewrite trim_end_cons in H by exact Hd. congruence.
  - intros r c. apply trim_end_last.
Qed.

Lemma trim_start_app_blank pre s :
  Js.blank pre -> Js.trim_start (pre ++ s) = Js.trim_start s.
Proof.
  induction 1 as [|c pre Hc _ IH]; [reflexivity |].
  cbn. by rewrite Hc.
Qed.

Lemma trim_end_app_blank s post :
  Js.blank post -> Js.trim_end (s ++ post) = Js.trim_end s.
Proof.
  intros Hpost. unfold Js.trim_end.
  rewrite rev_app_distr, trim_start_app_blank; [reflexivity |].
  by apply Forall_rev.
Qed.

Lemma trim_start_visible s :
  (forall c r, s = c :: r -> Js.is_white_space c = false) ->
  Js.trim_start s = s.
Proof.
  destruct s as [|c r]; [reflexivity |].
  intros H. cbn. by rewrite (H c r eq_refl).
Qed.

Lemma trim_end_visible s :
  (forall r c, s = r ++ [c] -> Js.is_white_space c = false) ->
  Js.trim_end s = s.
Proof.
  intros H. unfold Js.trim_end.
  rewrite trim_start_visible; [apply rev_involutive |].
  intros c r Hrev. apply (H (rev r) c).
  by rewrite <- (rev_involutive s), Hrev.
Qed.

(** The description determines the result: whatever is [s] without its
    leading and trailing white space is [s.trim()]. *)
Lemma trimmed_of_unique s t : Js.trimmed_of s t -> t = Js.trim s.
Proof.
  intros (pre & post & -> & Hpre & Hpost & Hhead & Hlast).
  unfold Js.trim. rewrite trim_start_app_blank by exact Hpre.
  destruct t as [|c r].
  - cbn [app]. apply trim_start_blank in Hpost as Hnone.
    by rewrite Hnone.
  - rewrite trim_start_visible.
    + rewrite trim_end_app_blank by exact Hpost.
      symmetry. by apply trim_end_visible.
    + intros c' r' [= <- _]. by apply (Hhead c r).
Qed.

Lemma trim_empty_iff s : Js.trim s = [] <-> Js.blank s.
Proof.
  unfold Js.trim. split.
  - intros H. destruct (Js.trim_start s) as [|d t] eqn:E.
    + by apply trim_start_blank.
    + rewrite trim_end_cons in H by eauto using trim_start_head.
      discriminate.
  - intros H. apply trim_start_blank in H. by rewrite H.
Qed.

Lemma truthy_false s : Js.truthy s = false <-> s = [].
Proof. destruct s; simpl; split; congruence. Qed.

Lemma truthy_true s : Js.truthy s = true <-> s <> [].
Proof. destruct s; simpl; split; congruence. Qed.

End TrimFacts.

(** ** Submitting a review *)

Section SubmitFacts.

Import Blog.

Lemma handleSubmit_run s :
  let p := Payload.mk (Js.trim (author s)) (Js.trim (title s))
             (Js.trim (content s)) (Js.parseInt10 (score s)) None in
  run handleSubmit s =
    if negb (Js.truthy (Js.trim (author s)))
       || negb (Js.truthy (Js.trim (title s)))
       || negb (Js.truthy (Js.trim (content s)))
    then (mk (reviews s) (author s) (title s) (content s) (score s)
            (imageFile s) required_fields_missing (loadError s),
          [PreventDefault])
    else (mk (reviews s) (author s) (title s) (content s) (score s)
            (imageFile s) [] (loadError s),
          match imageFile s with
          | Some f => [PreventDefault; ReadAsDataURL f p]
          | None =>
              [PreventDefault;
               Fetch (Http.mk Http.POST Http.ApiReviews Http.json_headers
                        (Http.JsonReview p))]
          end).
Proof.
  destruct s as [rs a t c sc img msg le].
  cbv -[Js.trim Js.truthy Js.parseInt10 Js.lit].
  destruct (Js.truthy (Js.trim a)), (Js.truthy (Js.trim t)),
    (Js.truthy (Js.trim c)), img; reflexivity.
Qed.

(** The image that [sendData] attaches after a file read. *)
Lemma transmitted_run s result :
  transmitted s result =
    if negb (Js.truthy (Js.trim (author s)))
       || negb (Js.truthy (Js.trim (title s)))
       || negb (Js.truthy (Js.trim (content s)))
    then []
    else [Payload.mk (Js.trim (author s)) (Js.trim (title s))
            (Js.trim (content s)) (Js.parseInt10 (score s))
            (match imageFile s, result with
             | Some _, Some data => if Js.truthy data then Some data else None
             | _, _ => None
             end)].
Proof.
  unfold transmitted. rewrite handleSubmit_run. cbv zeta.
  destruct (negb (Js.truthy (Js.trim (author s)))
            || negb (Js.truthy (Js.trim (title s)))
            || negb (Js.truthy (Js.trim (content s)))); [reflexivity |].
  destruct (imageFile s) as [f|]; [| reflexivity].
  destruct result as [data|]; [| reflexivity].
  cbv -[Js.trim Js.truthy Js.parseInt10 Js.lit author title content score].
  destruct (Js.truthy data); reflexivity.
Qed.

Lemma some_field_missing s :
  Js.trim (author s) = [] \/ Js.trim (title s) = [] \/ Js.trim (content s) = [] ->
  negb (Js.truthy (Js.trim (author s)))
  || negb (Js.truthy (Js.trim (title s)))
  || negb (Js.truthy (Js.trim (content s))) = true.
Proof.
  intros [H | [H | H]]; rewrite H; simpl;
    repeat (reflexivity || apply orb_true_r || rewrite orb_true_r).
Qed.

Lemma no_field_missing s :
  Js.trim (author s) <> [] /\ Js.trim (title s) <> [] /\ Js.trim (content s) <> [] ->
  negb (Js.truthy (Js.trim (author s)))
  || negb (Js.truthy (Js.trim (title s)))
  || negb (Js.truthy (Js.trim (content s))) = false.
Proof.
  intros (Ha & Ht & Hc).
  apply truthy_true in Ha, Ht, Hc. by rewrite Ha, Ht, Hc.
Qed.

(** C2: when the author, the title or the content is empty after trimming,
    [handleSubmit] sets the message "Please fill in all required fields."
    and nothing leaves the page: no request, no file read, hence no payload
    for the store to persist (whatever persisting a payload does, the store
    stays as it was), whatever the image and however a file read would
    end.  When all three are non-empty after trimming, the message
    stays cleared and exactly one review payload is transmitted. *)
Theorem C2_required_fields_guard s result :
  (Js.trim (author s) = [] \/ Js.trim (title s) = [] \/ Js.trim (content s) = [] ->
     message (run handleSubmit s).1 = required_fields_missing
     /\ (run handleSubmit s).2 = [PreventDefault]
     /\ requests (run handleSubmit s).2 = []
     /\ transmitted s result = []
     /\ forall (Store : Type) (persist : Payload.t -> Store -> Store) st,
         foldr persist st (transmitted s result) = st)
  /\ (Js.trim (author s) <> [] /\ Js.trim (title s) <> [] /\ Js.trim (content s) <> [] ->
     message (run handleSubmit s).1 = []
     /\ exists p, transmitted s result = [p]).
Proof.
  split; intros H.
  - rewrite transmitted_run, handleSubmit_run. cbv zeta.
    rewrite (some_field_missing _ H). by repeat split.
  - rewrite transmitted_run, handleSubmit_run. cbv zeta.
    rewrite (no_field_missing _ H). split; [reflexivity | eauto].
Qed.

Lemma C2_required_fields_guard_witness :
  (message (run handleSubmit blank_title_form).1 = required_fields_missing
   /\ transmitted blank_title_form None = [])
  /\ exists p, transmitted padded_form None = [p].
Proof.
  split.
  - destruct (proj1 (C2_required_fields_guard blank_title_form None))
      as (Hm & _ & _ & Ht & _).
    + right; left. reflexivity.
    + split; assumption.
  - apply (proj2 (C2_required_fields_guard padded_form None)).
    repeat split; vm_compute; discriminate.
Defined.

(** C6: every review payload that [handleSubmit] transmits carries the
    trimmed form values: its author, title and content are
    [author.trim()], [title.trim()] and [content.trim()], that is, the
    typed texts with their leading and trailing white space removed. *)
Theorem C6_payload_is_trimmed s result p :
  p ∈ transmitted s result ->
  (Payload.author p = Js.trim (author s)
   /\ Payload.title p = Js.trim (title s)
   /\ Payload.content p = Js.trim (content s))
  /\ Js.trimmed_of (author s) (Payload.author p)
  /\ Js.trimmed_of (title s) (Payload.title p)
  /\ Js.trimmed_of (content s) (Payload.content p).
Proof.
  rewrite transmitted_run.
  destruct (negb (Js.truthy (Js.trim (author s)))
            || negb (Js.truthy (Js.trim (title s)))
            || negb (Js.truthy (Js.trim (content s)))).
  - intros H. by apply elem_of_nil in H.
  - intros H. apply list_elem_of_singleton in H. subst p. cbn.
    repeat split; apply trim_spec.
Qed.

Lemma C6_payload_is_trimmed_witness :
  Payload.mk (js "A. Lee") (js "Quiet Nights") (js "a slow drama")
    (Some 11%Z) None ∈ transmitted padded_form None
  /\ Js.trimmed_of (js "  A. Lee ") (js "A. Lee").
Proof.
  assert (Hsent : Payload.mk (js "A. Lee") (js "Quiet Nights")
                    (js "a slow drama") (Some 11%Z) None
                  ∈ transmitted padded_form None)
    by (vm_compute; left).
  split; [exact Hsent |].
  exact (proj1 (proj2 (C6_payload_is_trimmed padded_form None _ Hsent))).
Defined.

End SubmitFacts.

(** ** The query of the quiz *)

Section QueryFacts.

Import Quiz.

Implicit Types (answers : list Js.str) (qs : list question).

Lemma join_nil_iff sep (parts : list Js.str) :
  Forall (fun p => p <> []) parts ->
  Js.join sep parts = [] <-> parts = [].
Proof.
  intros Hne. split; [| by intros ->].
  destruct parts as [|p rest]; [done |].
  inversion_clear Hne as [|? ? Hp _].
  destruct rest; simpl; intros H; [done |].
  by apply app_eq_nil in H as [? _].
Qed.

Lemma join_head sep (p : Js.str) (rest : list Js.str) c r :
  p = c :: r -> exists r', Js.join sep (p :: rest) = c :: r'.
Proof. intros ->. destruct rest; simpl; eauto. Qed.

Lemma parts_from k qs answers :
  filter (fun part => Js.truthy part = true)
    (imap (fun i => query_part answers (k + i)) qs)
  = map (fun '(q, answer) => prompt q ++ js " " ++ answer)
      (answered_from k qs answers).
Proof.
  revert k. induction qs as [|q rest IH]; intros k; [reflexivity |].
  cbn [imap answered_from].
  rewrite (imap_ext _ (fun i => query_part answers (S k + i)))
    by (intros; cbn; f_equal; lia).
  rewrite Nat.add_0_r. unfold query_part at 1.
  case_bool_decide as Hblank.
  - rewrite Hblank. cbn [Js.truthy negb].
    rewrite filter_cons_False by done. apply IH.
  - apply truthy_true in Hblank as Ht. rewrite Ht. cbn [negb].
    rewrite filter_cons_True; [| by destruct (prompt q)].
    cbn [map]. f_equal. apply IH.
Qed.

Lemma buildQuery_described answers :
  buildQuery answers = described_query answers.
Proof.
  unfold buildQuery, described_query. f_equal. apply (parts_from 0).
Qed.

Lemma answered_from_nil k qs answers :
  answered_from k qs answers = [] <->
  forall i, (i < length qs)%nat -> Js.trim (answer_at answers (k + i)) = [].
Proof.
  revert k. induction qs as [|q rest IH]; intros k; cbn [answered_from length].
  - split; [intros; lia | done].
  - case_bool_decide as Hblank.
    + rewrite IH. split.
      * intros H [|i] Hi; [by rewrite Nat.add_0_r |].
        replace (k + S i)%nat with (S k + i)%nat by lia. apply H. lia.
      * intros H i Hi.
        replace (S k + i)%nat with (k + S i)%nat by lia. apply H. lia.
    + split; [discriminate |].
      intros H. exfalso. apply Hblank.
      specialize (H 0%nat). rewrite Nat.add_0_r in H. apply H. lia.
Qed.

Lemma answered_from_entries k qs answers q answer :
  (q, answer) ∈ answered_from k qs answers -> q ∈ qs /\ answer <> [].
Proof.
  revert k. induction qs as [|q' rest IH]; intros k; cbn [answered_from].
  - intros H. by apply elem_of_nil in H.
  - case_bool_decide as Hblank.
    + intros H. destruct (IH _ H). split; [by right | done].
    + intros H. apply elem_of_cons in H as [[= -> ->] | H].
      * split; [by left | done].
      * destruct (IH _ H). split; [by right | done].
Qed.

Lemma described_parts_nonempty answers :
  Forall (fun p => p <> [])
    (map (fun '(q, answer) => prompt q ++ js " " ++ answer)
       (answered_from 0 QUESTIONS answers)).
Proof.
  apply Forall_map, Forall_forall. intros [q a] _.
  intros H. apply app_eq_nil in H as [_ H]. discriminate.
Qed.

(** C8: [buildQuery] is the described query: the contributions
    "prompt, space, trimmed answer" of the questions whose trimmed answer
    is not empty, in question order, joined by " . "; and it is the empty
    string exactly when the answer to every question is blank after
    trimming. *)
Theorem C8_buildQuery_described answers :
  buildQuery answers = described_query answers
  /\ (buildQuery answers = [] <->
      forall index, (index < total)%nat ->
                    Js.trim (answer_at answers index) = []).
Proof.
  split; [apply buildQuery_described |].
  rewrite buildQuery_described. unfold described_query.
  rewrite join_nil_iff by apply described_parts_nonempty.
  rewrite <- (answered_from_nil 0 QUESTIONS answers).
  split; [apply map_eq_nil | by intros ->].
Qed.

Lemma C8_buildQuery_described_witness :
  buildQuery (answers initial) = []
  /\ buildQuery [js " Dune "] <> [].
Proof.
  destruct (C8_buildQuery_described (answers initial)) as [_ Hempty].
  destruct (C8_buildQuery_described [js " Dune "]) as [_ Hdune].
  split.
  - apply Hempty. intros index Hindex.
    do 11 (destruct index as [|index]; [reflexivity |]).
    cbn in Hindex. lia.
  - intros Hq. apply (proj1 Hdune) with (index := 0%nat) in Hq.
    + vm_compute in Hq. discriminate.
    + vm_compute. lia.
Defined.

End QueryFacts.

(** ** Asking for recommendations *)

Section RecommendFacts.

Lemma handleRecommend_run (s : Docs.state) :
  run Docs.handleRecommend s =
    if negb (Js.truthy (Js.trim (Docs.query s)))
    then (Docs.mk (Docs.query s) None None Docs.empty_query_message,
          [PreventDefault])
    else (Docs.mk (Docs.query s) None None [],
          [PreventDefault;
           Fetch (Http.mk Http.POST Http.ApiRecommendations Http.json_headers
                    (Http.JsonQuery (Js.trim (Docs.query s))))]).
Proof.
  destruct s as [q g l m].
  cbv -[Js.trim Js.truthy Js.lit].
  destruct (Js.truthy (Js.trim q)); reflexivity.
Qed.

Import Quiz.

Lemma submitRecommendations_run (s : state) :
  run submitRecommendations s =
    if isSubmitting s then (s, [])
    else if negb (Js.truthy (buildQuery (answers s)))
    then (mk (step s) (answers s) (globalRec s) (localRec s)
            unanswered_message false (showResults s), [])
    else (mk (step s) (answers s) None None [] true false,
          [Fetch (Http.mk Http.POST Http.ApiRecommendations Http.json_headers
                    (Http.JsonQuery (buildQuery (answers s))))]).
Proof.
  destruct s as [st ans g l m sub sh].
  cbv -[buildQuery Js.truthy Js.lit].
  destruct sub; [reflexivity |].
  destruct (Js.truthy (buildQuery ans)); reflexivity.
Qed.

Lemma prompts_start_visible :
  forallb (fun q => match prompt q with
                    | c :: _ => negb (Js.is_white_space c)
                    | [] => false
                    end) QUESTIONS = true.
Proof. vm_compute. reflexivity. Qed.

(** A query built from the answers never starts with white space, so
    trimming cannot empty it. *)
Lemma buildQuery_trim answers :
  Js.trim (buildQuery answers) = [] <-> buildQuery answers = [].
Proof.
  split; [| by intros ->].
  intros Hblank. apply trim_empty_iff in Hblank.
  rewrite buildQuery_described in *. unfold described_query in *.
  destruct (answered_from 0 QUESTIONS answers) as [|[q a] rest] eqn:E;
    [reflexivity | exfalso].
  assert (Hq : q ∈ QUESTIONS).
  { eapply (answered_from_entries 0 QUESTIONS answers q a).
    rewrite E. by left. }
  pose proof prompts_start_visible as Hvis.
  rewrite forallb_forall in Hvis.
  specialize (Hvis q (proj1 (list_elem_of_In _ _) Hq)).
  destruct (prompt q) as [|c r] eqn:Hp; [discriminate |].
  cbn [map] in Hblank.
  match type of Hblank with
  | Js.blank (Js.join ?sep (?p :: ?tl)) =>
      destruct (join_head sep p tl c (r ++ js " " ++ a)) as [r' Hj];
      [by rewrite Hp |]
  end.
  assert (Hhead : Js.blank (c :: r')) by (rewrite <- Hj; exact Hblank).
  inversion_clear Hhead as [|? ? Hc _].
  rewrite Hc in Hvis. discriminate.
Qed.

(** The page of docs/app.js renders no results block while both sides are
    null. *)
Lemma docs_hides_block_without_match (s : Docs.state) :
  Docs.globalRec s = None -> Docs.localRec s = None ->
  Docs.render_results s = None.
Proof. unfold Docs.render_results. by intros -> ->. Qed.

End RecommendFacts.

(** ** Deleting a review *)

Section DeleteFacts.

Import Blog.

Lemma handleDelete_run reviewId passcode confirmed s :
  run (handleDelete reviewId passcode confirmed) s =
    (s,
     Prompt (js "Enter delete passcode:") ::
     match passcode with
     | None => []
     | Some p =>
         if negb (Js.truthy p) then []
         else
           Confirm (js "Delete this review? This cannot be undone.") ::
           if negb confirmed then []
           else [Fetch (Http.mk Http.DELETE (Http.ApiReview reviewId)
                          [(js "X-Delete-Passcode", p)] Http.NoBody)]
     end).
Proof.
  destruct s, passcode as [p|]; [| reflexivity].
  cbv -[Js.truthy Js.lit].
  destruct (Js.truthy p), confirmed; reflexivity.
Qed.

(** C7: the only request [handleDelete] ever issues is a DELETE on the
    review's path whose one header, X-Delete-Passcode, carries the typed
    passcode, with no body; it is issued exactly when a non-empty passcode
    was typed and the confirmation accepted.  When the prompt is cancelled
    or left empty, or the confirmation declined, no request is issued; in
    every case the handler leaves the component state, and with it the
    review list, as it was. *)
Theorem C7_delete_needs_passcode reviewId passcode confirmed s :
  (run (handleDelete reviewId passcode confirmed) s).1 = s
  /\ (passcode = None \/ passcode = Some [] \/ confirmed = false ->
      requests (run (handleDelete reviewId passcode confirmed) s).2 = [])
  /\ (forall p, passcode = Some p -> p <> [] -> confirmed = true ->
      requests (run (handleDelete reviewId passcode confirmed) s).2 =
        [Http.mk Http.DELETE (Http.ApiReview reviewId)
           [(js "X-Delete-Passcode", p)] Http.NoBody]).
Proof.
  rewrite handleDelete_run. split; [reflexivity |]. split.
  - intros [-> | [-> | ->]]; [reflexivity | reflexivity |].
    destruct passcode as [p|]; [| reflexivity].
    by destruct (Js.truthy p).
  - intros p -> Hp%truthy_true ->. by rewrite Hp.
Qed.

Lemma C7_delete_needs_passcode_witness :
  requests (run (handleDelete 7 None true) initial).2 = []
  /\ requests (run (handleDelete 7 (Some (js "s3cret")) false) initial).2 = []
  /\ requests (run (handleDelete 7 (Some (js "s3cret")) true) initial).2 =
       [Http.mk Http.DELETE (Http.ApiReview 7)
          [(js "X-Delete-Passcode", js "s3cret")] Http.NoBody].
Proof.
  split; [| split].
  - apply (C7_delete_needs_passcode 7 None true initial). by left.
  - apply (C7_delete_needs_passcode 7 (Some (js "s3cret")) false initial).
    by right; right.
  - apply (C7_delete_needs_passcode 7 (Some (js "s3cret")) true initial);
      [reflexivity | discriminate | reflexivity].
Defined.

End DeleteFacts.

(** ** One request at a time *)

Section InFlightFacts.

Import Quiz.

Lemma submitRecommendations_guarded : guarded submitRecommendations.
Proof.
  intros s. rewrite submitRecommendations_run.
  destruct (isSubmitting s) eqn:Hsub; [by left |].
  destruct (Js.truthy (buildQuery (answers s))); cbn [negb].
  - right. repeat split. by eexists.
  - left. by split.
Qed.

Lemma updateAnswer_run value s :
  run (updateAnswer value) s =
    (mk (step s) (array_set (step s) value (answers s)) None None
       (if Js.truthy (message s) then [] else message s)
       (isSubmitting s) false, []).
Proof.
  destruct s as [st ans g l m sub sh].
  cbv -[array_set Js.truthy].
  destruct (Js.truthy m); reflexivity.
Qed.

Lemma updateAnswer_guarded value : guarded (updateAnswer value).
Proof. intros s. rewrite updateAnswer_run. by left. Qed.

Lemma goBack_guarded : guarded goBack.
Proof.
  intros [st ans g l m sub sh]. left.
  cbv -[decide Nat.sub lt]. by destruct (decide _).
Qed.

Lemma goNext_cases s :
  (isSubmitting (run goNext s).1 = isSubmitting s /\ (run goNext s).2 = [])
  \/ (isSubmitting (run goNext s).1 = isSubmitting (run submitRecommendations s).1
      /\ (run goNext s).2 = (run submitRecommendations s).2).
Proof.
  rewrite submitRecommendations_run.
  destruct s as [st ans g l m sub sh].
  cbv -[decide Nat.sub Nat.add lt total canProceed current buildQuery
         Js.truthy Js.lit].
  destruct (canProceed _); cbn [negb]; [| by left].
  destruct (decide _); [by left | right].
  destruct sub; [by split |].
  by destruct (Js.truthy (buildQuery ans)).
Qed.

Lemma handleFormSubmit_guarded : guarded handleFormSubmit.
Proof.
  intros s.
  assert (Hrun : run handleFormSubmit s
                 = ((run goNext s).1, PreventDefault :: (run goNext s).2)).
  { unfold handleFormSubmit. run_handler. by destruct (goNext s s) as [[] ?]. }
  rewrite Hrun. cbn [fst snd].
  change (sent_queries (PreventDefault :: (run goNext s).2))
    with (sent_queries (run goNext s).2).
  destruct (goNext_cases s) as [[Hs He] | [Hs He]].
  - left. by rewrite Hs, He.
  - rewrite Hs, He. apply submitRecommendations_guarded.
Qed.

Lemma dispatch_at_most_one h w :
  guarded h -> at_most_one w -> at_most_one (dispatch h w).
Proof.
  intros Hh Hw. unfold dispatch, at_most_one in *.
  specialize (Hh (ui w)).
  destruct (run h (ui w)) as [s' es]. cbn [fst snd ui in_flight] in *.
  destruct Hh as [[-> ->] | (Hidle & -> & q & ->)].
  - by rewrite app_nil_r.
  - rewrite Hidle in Hw. rewrite Hw. cbn. lia.
Qed.

Lemma settle_at_most_one i r w :
  at_most_one w -> at_most_one (step_world w (Settle i r)).
Proof.
  intros Hw. cbn [step_world].
  destruct (in_flight w !! i) as [q|] eqn:Hq; [| exact Hw].
  assert (Hlen : (length (in_flight w) <= 1)%nat).
  { unfold at_most_one in Hw. destruct (isSubmitting (ui w)); [done |].
    rewrite Hw. cbn. lia. }
  assert (Hout : in_flight w = [q]).
  { destruct (in_flight w) as [|q' [|]]; cbn in Hlen; [done | | lia].
    destruct i; [by injection Hq as -> | done]. }
  assert (Hi : i = 0%nat).
  { apply lookup_lt_Some in Hq. rewrite Hout in Hq. cbn in Hq. lia. }
  subst i. rewrite Hout. unfold at_most_one.
  destruct (ui w), r; reflexivity.
Qed.

Lemma reachable_at_most_one w : reachable w -> at_most_one w.
Proof.
  induction 1 as [|w ev _ IH]; [reflexivity |].
  destruct ev; [.. | by apply settle_at_most_one];
    cbn [step_world]; apply dispatch_at_most_one;
    auto using updateAnswer_guarded, handleFormSubmit_guarded,
      goBack_guarded, submitRecommendations_guarded.
Qed.

Lemma reachable_run_events evs w :
  reachable w -> reachable (run_events w evs).
Proof.
  revert w. induction evs as [|ev evs IH]; intros w Hw; [exact Hw |].
  apply IH. by constructor.
Qed.

(** C9: while [isSubmitting] is up [submitRecommendations] does nothing;
    whenever it sends a request it leaves [isSubmitting] up; no event other
    than the settling of a request lowers [isSubmitting]; and in every
    state the page can reach, at most one recommendation request is in
    flight, none at all while [isSubmitting] is down. *)
Theorem C9_at_most_one_request :
  (forall s, isSubmitting s = true -> run submitRecommendations s = (s, []))
  /\ (forall s, requests (run submitRecommendations s).2 <> [] ->
                isSubmitting s = false
                /\ isSubmitting (run submitRecommendations s).1 = true)
  /\ (forall w ev, isSubmitting (ui w) = true ->
                   (forall i r, ev <> Settle i r) ->
                   isSubmitting (ui (step_world w ev)) = true)
  /\ (forall w, reachable w ->
                (length (in_flight w) <= 1)%nat
                /\ (isSubmitting (ui w) = false -> in_flight w = [])).
Proof.
  split; [| split; [| split]].
  - intros s Hs. by rewrite submitRecommendations_run, Hs.
  - intros s. rewrite submitRecommendations_run.
    destruct (isSubmitting s); [done |].
    by destruct (Js.truthy (buildQuery (answers s))).
  - intros w ev Hup Hev.
    assert (Hkeep : forall h, guarded h ->
                              isSubmitting (ui (dispatch h w)) = true).
    { intros h Hh. unfold dispatch. specialize (Hh (ui w)).
      destruct (run h (ui w)) as [s' es]. cbn [fst snd ui] in *.
      destruct Hh as [[-> _] | (Hidle & _)]; congruence. }
    destruct ev; cbn [step_world];
      auto using updateAnswer_guarded, handleFormSubmit_guarded,
        goBack_guarded, submitRecommendations_guarded.
    by destruct (Hev i r).
  - intros w Hw. apply reachable_at_most_one in Hw.
    unfold at_most_one in Hw.
    destruct (isSubmitting (ui w)); split; try done.
    rewrite Hw. cbn. lia.
Qed.

Lemma C9_at_most_one_request_witness :
  run submitRecommendations (ui submitted_world) = (ui submitted_world, [])
  /\ (length (in_flight submitted_world) <= 1)%nat.
Proof.
  destruct C9_at_most_one_request as (Hnoop & _ & _ & Hreach).
  split.
  - apply Hnoop. vm_compute. reflexivity.
  - apply Hreach, reachable_run_events, reachable_initial.
Defined.

End InFlightFacts.

(** ** Results on display and the answers *)

Section FreshnessFacts.

Import Quiz.

(** Every edit of an answer takes the recommendations off the display. *)
Lemma updateAnswer_clears value s :
  globalRec (run (updateAnswer value) s).1 = None
  /\ localRec (run (updateAnswer value) s).1 = None
  /\ showResults (run (updateAnswer value) s).1 = false.
Proof. by rewrite updateAnswer_run. Qed.

(** C10 on a session the page allows: the quiz is filled in and submitted,
    the last answer is changed while the request is out, then the reply
    arrives.  The reply is put on display although it answers the query of
    the earlier answers: the displayed recommendations are stale. *)
Theorem C10_late_edit_shows_stale_results :
  feasible initial_world late_edit_session = true
  /\ showResults (ui (run_events initial_world late_edit_session)) = true
  /\ globalRec (ui (run_events initial_world late_edit_session)) = Some dune
  /\ shown_for (run_events initial_world late_edit_session)
     = Some (buildQuery (answers (ui submitted_world)))
  /\ buildQuery (answers (ui (run_events initial_world late_edit_session)))
     <> buildQuery (answers (ui submitted_world))
  /\ ~ up_to_date (run_events initial_world late_edit_session).
Proof.
  assert (Hne : buildQuery
                  (answers (ui (run_events initial_world late_edit_session)))
                <> buildQuery (answers (ui submitted_world))).
  { apply (bool_decide_eq_false_1 _). vm_compute. reflexivity. }
  assert (Hshown : shown_for (run_events initial_world late_edit_session)
                   = Some (buildQuery (answers (ui submitted_world)))).
  { vm_compute. reflexivity. }
  assert (Hshow : showResults
                    (ui (run_events initial_world late_edit_session)) = true).
  { vm_compute. reflexivity. }
  split; [vm_compute; reflexivity |].
  split; [exact Hshow |].
  split; [vm_compute; reflexivity |].
  split; [exact Hshown |].
  split; [exact Hne |].
  intros Hfresh. apply Hne.
  specialize (Hfresh Hshow).
  congruence.
Qed.

End FreshnessFacts.

(** ** The review store and the engine, as specified *)

Section BackendFacts.

Import Backend.

Variable vocabulary : Type.
Variable vector : Type.
Variable fit : list Js.str -> vocabulary.
Variable vectorize : vocabulary -> Js.str -> vector.
Variable cosine : vector -> vector -> Q.
Variable min_reviews : nat.
Variable max_image_size : nat.
Variable allowed_types : list Js.str.
Variable decode_image : Js.str -> image.

Local Abbreviation engine := (engine vocabulary vector).
Local Abbreviation recommend := (recommend fit vectorize cosine min_reviews).
Local Abbreviation coherent := (coherent fit vectorize).
Local Abbreviation submit := (submit max_image_size allowed_types).
Local Abbreviation submit_review :=
  (@submit_review vocabulary vector max_image_size allowed_types).
Local Abbreviation post_review :=
  (@post_review vocabulary vector max_image_size allowed_types decode_image).
Local Abbreviation remove_review := (@remove_review vocabulary vector).
Local Abbreviation start := (start fit vectorize).
Local Abbreviation build_index := (build_index fit vectorize).
Local Abbreviation best_of := (best_of vectorize cosine).

Implicit Types (e : engine) (st : ReviewStore) (q : Js.str).

Lemma valid_score_none score :
  (forall z, score = Some z -> ~ (0 <= z <= 10)%Z) -> valid_score score = None.
Proof.
  intros H. destruct score as [z|]; [| reflexivity]. cbn.
  case_bool_decide; [| reflexivity]. by destruct (H z eq_refl).
Qed.

Lemma submit_rejects_score author title content score img now st :
  valid_score score = None ->
  exists why,
    submit author title content score img now st
    = (Err (ValidationError why), st).
Proof.
  intros Hscore. unfold Backend.submit. rewrite Hscore.
  destruct (Js.truthy (Js.trim author)); cbn [negb]; [| eauto].
  destruct (Js.truthy (Js.trim title)); cbn [negb]; [| eauto].
  destruct (Js.truthy (Js.trim content)); cbn [negb]; eauto.
Qed.

Lemma submit_rejects_blank author title content score img now st :
  Js.trim author = [] \/ Js.trim title = [] \/ Js.trim content = [] ->
  exists why,
    submit author title content score img now st
    = (Err (ValidationError why), st).
Proof.
  intros H. unfold Backend.submit.
  destruct (Js.truthy (Js.trim author)) eqn:Ha; cbn [negb]; [| eauto].
  destruct (Js.truthy (Js.trim title)) eqn:Ht; cbn [negb]; [| eauto].
  destruct (Js.truthy (Js.trim content)) eqn:Hc; cbn [negb]; [| eauto].
  apply truthy_true in Ha, Ht, Hc. by destruct H as [? | [? | ?]].
Qed.

Lemma recommend_empty q e :
  Js.trim q = [] -> recommend q e = (Err EmptyQueryError, e).
Proof. intros H. unfold Backend.recommend. by rewrite H. Qed.

Lemma recommend_ok q e :
  Js.trim q <> [] ->
  recommend q e =
    (Ok {| global := global_match
                       <$> (global_index e ≫= fun idx => best_of idx q);
           local := local_match
                      <$> (recommend_local fit vectorize cosine min_reviews
                             q e).1 |},
     {| store := store e; catalog := catalog e;
        global_index := global_index e;
        local_cache := (recommend_local fit vectorize cosine min_reviews
                          q e).2 |}).
Proof.
  intros H%truthy_true. unfold Backend.recommend. rewrite H. cbn [negb].
  by destruct (recommend_local _ _ _ _ _ _).
Qed.

Lemma best_of_empty_catalog q :
  best_of (build_index catalog_text []) q = None.
Proof. reflexivity. Qed.

(** With coherent indices the result is a function of the query, the
    store's rows and the catalog alone. *)
Lemma recommend_by_snapshot q e :
  coherent e ->
  (recommend q e).1 =
    if negb (Js.truthy (Js.trim q)) then Err EmptyQueryError
    else Ok {| global := global_match
                           <$> best_of (build_index catalog_text (catalog e)) q;
               local := local_match
                          <$> (if bool_decide (length (rows (store e))
                                               < min_reviews)%nat
                               then None
                               else best_of
                                      (build_index review_text
                                         (rows (store e))) q) |}.
Proof.
  intros [Hlocal Hglobal].
  destruct (Js.truthy (Js.trim q)) eqn:Hq; cbn [negb].
  - rewrite recommend_ok by by apply truthy_true.
    cbn [fst]. do 2 f_equal.
    + destruct (global_index e) as [idx|]; cbn.
      * by rewrite Hglobal.
      * by rewrite Hglobal.
    + unfold Backend.recommend_local. case_bool_decide; [done |].
      cbn [fst]. destruct (local_cache e) as [idx|]; cbn; by subst.
  - apply truthy_false in Hq. by rewrite recommend_empty.
Qed.

Lemma recommend_keeps q e :
  store (recommend q e).2 = store e /\ catalog (recommend q e).2 = catalog e
  /\ global_index (recommend q e).2 = global_index e.
Proof.
  destruct (Js.truthy (Js.trim q)) eqn:Hq.
  - by rewrite recommend_ok by by apply truthy_true.
  - apply truthy_false in Hq. by rewrite recommend_empty.
Qed.

Lemma recommend_coherent q e : coherent e -> coherent (recommend q e).2.
Proof.
  intros [Hlocal Hglobal].
  destruct (Js.truthy (Js.trim q)) eqn:Hq.
  - rewrite recommend_ok by by apply truthy_true.
    split; [| exact Hglobal]. cbn.
    unfold Backend.recommend_local. case_bool_decide; [exact Hlocal |].
    cbn. by destruct (local_cache e).
  - apply truthy_false in Hq. by rewrite recommend_empty.
Qed.

Lemma start_coherent source passcode : coherent (start source passcode).
Proof. by destruct source. Qed.

Lemma with_store_coherent e st : coherent e -> coherent (with_store e st).
Proof. by intros [_ ?]. Qed.

Lemma submit_review_coherent author title content score img now e :
  coherent e ->
  coherent (submit_review author title content score img now e).2.
Proof.
  intros He. unfold Backend.submit_review.
  destruct (Backend.submit _ _ _ _ _ _ _ _ _) as [[r|err] st];
    [by apply with_store_coherent | exact He].
Qed.

Lemma remove_review_coherent review_id presented e :
  coherent e -> coherent (remove_review review_id presented e).2.
Proof.
  intros He. unfold Backend.remove_review.
  destruct (delete_review _ _ _) as [[u|err] st];
    [by apply with_store_coherent | exact He].
Qed.

(** A second lookup right after the first finds the index the first one
    left and answers the same. *)
Lemma recommend_twice q e :
  recommend q (recommend q e).2 = recommend q e.
Proof.
  destruct (Js.truthy (Js.trim q)) eqn:Hq.
  - apply truthy_true in Hq.
    rewrite (recommend_ok q e Hq). cbn [snd].
    rewrite recommend_ok by exact Hq.
    unfold Backend.recommend_local.
    cbn [store catalog global_index local_cache].
    case_bool_decide; cbn [fst snd]; [reflexivity |].
    by destruct (local_cache e).
  - apply truthy_false in Hq. by rewrite !recommend_empty.
Qed.

(** C4: when the store holds fewer reviews than the configured minimum,
    every lookup that returns a result (every query that is not blank
    does) returns it with a null local side, and the quiz client, on
    receiving that result, shows the results block with the "not enough
    data" paragraph in place of a local match. *)
Theorem C4_too_few_reviews q e :
  (length (rows (store e)) < min_reviews)%nat ->
  (Js.trim q <> [] -> exists r, (recommend q e).1 = Ok r)
  /\ (forall r,
         (recommend q e).1 = Ok r ->
         local r = None
         /\ forall s : Quiz.state,
             exists v,
               Quiz.render_results
                 (run (Quiz.onRecommendationsSettled (Http.Fulfilled r)) s).1
               = Some v
               /\ local_view v = NotEnoughData).
Proof.
  intros Hfew. split.
  - intros Hq. rewrite recommend_ok by exact Hq. eauto.
  - intros r Hr.
    assert (Hlocal : local r = None).
    { destruct (Js.truthy (Js.trim q)) eqn:Hq.
      - rewrite recommend_ok in Hr by by apply truthy_true.
        cbn [fst] in Hr. injection Hr as <-. cbn [local].
        unfold Backend.recommend_local. by rewrite bool_decide_eq_true_2.
      - apply truthy_false in Hq. by rewrite recommend_empty in Hr. }
    split; [exact Hlocal |].
    intros [st ans g l m sub sh]. eexists. split; [reflexivity |].
    cbn. by rewrite Hlocal.
Qed.

End BackendFacts.

(** ** The specified backend on the sample configuration *)

Lemma C4_too_few_reviews_witness :
  exists r,
    (Backend.recommend Sample.fit Sample.vectorize Sample.cosine
       Sample.min_reviews (js "melancholic literary drama")
       Sample.one_review).1 = Backend.Ok r
    /\ local r = None.
Proof.
  assert (Hfew : (length (Backend.rows (Backend.store Sample.one_review))
                  < Sample.min_reviews)%nat) by (vm_compute; lia).
  destruct (C4_too_few_reviews unit Js.str Sample.fit Sample.vectorize
              Sample.cosine Sample.min_reviews
              (js "melancholic literary drama") Sample.one_review Hfew)
    as [Hsome Hnull].
  destruct Hsome as [r Hr]; [vm_compute; discriminate |].
  exists r. split; [exact Hr | apply (Hnull r Hr)].
Defined.

(** ** The base address of the API *)

Section ConfigFacts.

Import Config.

Lemma strip_trailing_slash_snoc (b : Js.str) :
  strip_trailing_slash (b ++ js "/") = b.
Proof.
  induction b as [|c r IH]; [reflexivity |].
  change ((c :: r) ++ js "/") with (c :: (r ++ js "/")).
  cbn [strip_trailing_slash]. rewrite IH.
  by destruct r.
Qed.

Lemma strip_trailing_slash_none (b : Js.str) :
  list.last b <> Some 47 -> strip_trailing_slash b = b.
Proof.
  induction b as [|c r IH]; [reflexivity |].
  intros Hlast. cbn [strip_trailing_slash].
  destruct r as [|d r'].
  - destruct (N.eqb_spec c 47) as [-> | Hc]; [by destruct Hlast | reflexivity].
  - by rewrite IH.
Qed.

(** X1: one trailing slash of the configured base address is insignificant:
    for a base that does not itself end with a slash, configuring it with or
    without a final slash gives the same [API_BASE], namely the base; and an
    unset or empty [BOOK_API_BASE] gives the local default. *)
Theorem X1_api_base_trailing_slash (b : Js.str) :
  b <> [] -> list.last b <> Some 47 ->
  API_BASE (Some b) = b
  /\ API_BASE (Some (b ++ js "/")) = b
  /\ API_BASE None = default_base
  /\ API_BASE (Some []) = default_base.
Proof.
  intros Hb Hlast. unfold API_BASE. repeat split.
  - cbn. apply truthy_true in Hb. rewrite Hb.
    by apply strip_trailing_slash_none.
  - cbn. replace (Js.truthy (b ++ js "/")) with true by by destruct b.
    apply strip_trailing_slash_snoc.
Qed.

Lemma X1_api_base_trailing_slash_witness :
  API_BASE (Some (js "https://your-service.onrender.com/"))
  = js "https://your-service.onrender.com"
  /\ API_BASE (Some (js "https://your-service.onrender.com"))
     = js "https://your-service.onrender.com".
Proof.
  assert (Hb : js "https://your-service.onrender.com" <> [])
    by (vm_compute; discriminate).
  assert (Hlast : list.last (js "https://your-service.onrender.com") <> Some 47)
    by (vm_compute; discriminate).
  destruct (X1_api_base_trailing_slash _ Hb Hlast) as (Hplain & Hslash & _).
  split; [exact Hslash | exact Hplain].
Defined.

End ConfigFacts.

(** ** The quiz handlers, one equation each *)

Section QuizRunFacts.

Import Quiz.

Lemma goBack_run s :
  run goBack s =
    if decide (0 < step s)%nat
    then (mk (step s - 1) (answers s) (globalRec s) (localRec s) []
            (isSubmitting s) (showResults s), [])
    else (s, []).
Proof.
  destruct s as [st ans g l m sub sh].
  cbv -[decide Nat.sub lt]. by destruct (decide _).
Qed.

Lemma goNext_run s :
  run goNext s =
    if negb (canProceed s) then
      (mk (step s) (answers s) (globalRec s) (localRec s)
         match current s with
         | Some {| kind := Text _ |} => js "Please enter a response to continue."
         | _ => js "Please choose an option to continue."
         end (isSubmitting s) (showResults s), [])
    else if decide (step s < total - 1)%nat then
      (mk (step s + 1) (answers s) (globalRec s) (localRec s) []
         (isSubmitting s) (showResults s), [])
    else if isSubmitting s then
      (mk (step s) (answers s) (globalRec s) (localRec s) [] true
         (showResults s), [])
    else if negb (Js.truthy (buildQuery (answers s))) then
      (mk (step s) (answers s) (globalRec s) (localRec s) unanswered_message
         false (showResults s), [])
    else
      (mk (step s) (answers s) None None [] true false,
       [Fetch (Http.mk Http.POST Http.ApiRecommendations Http.json_headers
                 (Http.JsonQuery (buildQuery (answers s))))]).
Proof.
  destruct s as [st ans g l m sub sh].
  cbv -[decide Nat.sub Nat.add lt total canProceed current buildQuery
         Js.truthy Js.lit].
  destruct (canProceed _); cbn [negb]; [| reflexivity].
  destruct (decide _); [reflexivity |].
  destruct sub; [reflexivity |].
  by destruct (Js.truthy (buildQuery ans)).
Qed.

Lemma handleFormSubmit_run s :
  run handleFormSubmit s = ((run goNext s).1, PreventDefault :: (run goNext s).2).
Proof.
  unfold handleFormSubmit. run_handler. by destruct (goNext s s) as [[] ?].
Qed.

Lemma onRecommendationsSettled_run r s :
  run (onRecommendationsSettled r) s =
    match r with
    | Http.Fulfilled data =>
        (mk (step s) (answers s) (global data) (local data) (message s)
           false true, [])
    | Http.Rejected =>
        (mk (step s) (answers s) (globalRec s) (localRec s) wake_up_hint
           false false, [])
    end.
Proof. by destruct s, r. Qed.

(** Reading a slot after [next[step] = value], in range or past the end. *)
Lemma answer_at_array_set i value arr j :
  answer_at (array_set i value arr) j
  = if decide (j = i) then value else answer_at arr j.
Proof.
  unfold answer_at, array_set, Js.str in *.
  destruct (decide (i < length arr)%nat) as [Hi|Hi].
  - destruct (decide (j = i)) as [->|Hj].
    + by rewrite list_lookup_insert_eq.
    + by rewrite list_lookup_insert_ne.
  - destruct (decide (j < length arr)%nat) as [Hlt|Hge].
    + rewrite lookup_app_l by exact Hlt.
      destruct (decide (j = i)); [lia | reflexivity].
    + rewrite (lookup_app_r arr) by lia.
      rewrite (lookup_ge_None_2 arr j) by lia. cbn [default].
      destruct (decide (j < i)%nat) as [Hji|Hji].
      * rewrite lookup_app_l by (rewrite length_replicate; lia).
        rewrite lookup_replicate_2 by lia.
        destruct (decide (j = i)); [lia | reflexivity].
      * rewrite lookup_app_r by (rewrite length_replicate; lia).
        rewrite length_replicate.
        destruct (decide (j = i)) as [->|Hne].
        -- by replace (i - length arr - (i - length arr))%nat with 0%nat by lia.
        -- by rewrite lookup_ge_None_2 by (cbn; lia).
Qed.

(** X2: [updateAnswer(value)] writes the slot of the current question and
    nothing else: afterwards that answer reads [value], every other answer
    reads as before (also when the step is past the end of the array), and
    neither the step nor the submission flag moves. *)
Theorem X2_updateAnswer_one_slot value s j :
  answer_at (answers (run (updateAnswer value) s).1) j
  = (if decide (j = step s) then value else answer_at (answers s) j)
  /\ step (run (updateAnswer value) s).1 = step s
  /\ isSubmitting (run (updateAnswer value) s).1 = isSubmitting s
  /\ (run (updateAnswer value) s).2 = [].
Proof.
  rewrite updateAnswer_run. cbn [fst snd answers step isSubmitting].
  by rewrite answer_at_array_set.
Qed.

(** X3: [goNext] moves by at most one question and only past an answered
    one; on an unanswered question it stays, sends nothing and shows a
    message; it sends a request only from the last question, answered,
    with no request in flight; and it never touches the answers. *)
Theorem X3_goNext_never_skips s :
  answers (run goNext s).1 = answers s
  /\ (step (run goNext s).1 = step s
      \/ (step (run goNext s).1 = step s + 1
          /\ canProceed s = true /\ step s + 1 < total))%nat
  /\ (canProceed s = false ->
      step (run goNext s).1 = step s
      /\ (run goNext s).2 = []
      /\ message (run goNext s).1 <> [])
  /\ ((run goNext s).2 <> [] ->
      canProceed s = true /\ isSubmitting s = false
      /\ (total - 1 <= step s)%nat
      /\ step (run goNext s).1 = step s).
Proof.
  rewrite goNext_run.
  destruct (canProceed s) eqn:Hcan; cbn [negb].
  - destruct (decide (step s < total - 1)%nat) as [Hlt|Hge].
    + cbn [fst snd answers step message isSubmitting].
      repeat split; try done. right. repeat split; lia.
    + destruct (isSubmitting s).
      * cbn [fst snd answers step message isSubmitting].
        repeat split; try done. by left.
      * destruct (Js.truthy (buildQuery (answers s)));
          cbn [negb fst snd answers step message isSubmitting];
          repeat split; try done; try (by left); lia.
  - cbn [fst snd answers step message isSubmitting].
    repeat split; try done; [by left |].
    destruct (current s) as [[? ? []]|]; discriminate.
Qed.

Lemma X3_goNext_never_skips_witness :
  step (run goNext initial).1 = 0%nat
  /\ (run goNext initial).2 = []
  /\ message (run goNext initial).1 <> [].
Proof.
  destruct (X3_goNext_never_skips initial) as (_ & _ & Hstay & _).
  apply Hstay. reflexivity.
Defined.

End QuizRunFacts.

(** ** Invariants of the quiz page *)

Section SessionFacts.

Import Quiz Session.

Lemma dispatch_ui h w : ui (dispatch h w) = (run h (ui w)).1.
Proof. unfold dispatch. by destruct (run h (ui w)). Qed.

Lemma dispatch_in_flight h w :
  in_flight (dispatch h w) = in_flight w ++ sent_queries (run h (ui w)).2.
Proof. unfold dispatch. by destruct (run h (ui w)). Qed.

Lemma dispatch_shown_for h w : shown_for (dispatch h w) = shown_for w.
Proof. unfold dispatch. by destruct (run h (ui w)). Qed.

Lemma initial_in_range : in_range initial.
Proof. split; vm_compute; lia. Qed.

Lemma updateAnswer_in_range value s :
  in_range s -> in_range (run (updateAnswer value) s).1.
Proof.
  intros [Hstep Hlen]. rewrite updateAnswer_run. split; [exact Hstep |].
  cbn [fst answers]. unfold array_set.
  destruct (decide _) as [_|Hout]; [by rewrite length_insert | lia].
Qed.

Lemma goNext_in_range s : in_range s -> in_range (run goNext s).1.
Proof.
  intros [Hstep Hlen]. rewrite goNext_run.
  destruct (canProceed s); cbn [negb]; [| by split].
  destruct (decide _); [split; cbn [fst step answers]; [lia | done] |].
  destruct (isSubmitting s); [by split |].
  by destruct (Js.truthy _); split.
Qed.

Lemma goBack_in_range s : in_range s -> in_range (run goBack s).1.
Proof.
  intros [Hstep Hlen]. rewrite goBack_run.
  destruct (decide _); split; cbn [fst step answers]; try done; lia.
Qed.

Lemma submitRecommendations_in_range s :
  in_range s -> in_range (run submitRecommendations s).1.
Proof.
  intros [Hstep Hlen]. rewrite submitRecommendations_run.
  destruct (isSubmitting s); [by split |].
  by destruct (Js.truthy _); split.
Qed.

Lemma onRecommendationsSettled_in_range r s :
  in_range s -> in_range (run (onRecommendationsSettled r) s).1.
Proof. intros [Hstep Hlen]. rewrite onRecommendationsSettled_run. by destruct r. Qed.

Lemma step_world_in_range w ev :
  in_range (ui w) -> in_range (ui (step_world w ev)).
Proof.
  intros Hw. destruct ev as [value | | | | i r]; cbn [step_world];
    rewrite ?dispatch_ui.
  - by apply updateAnswer_in_range.
  - rewrite handleFormSubmit_run. by apply goNext_in_range.
  - by apply goBack_in_range.
  - by apply submitRecommendations_in_range.
  - destruct (in_flight w !! i); [| exact Hw].
    pose proof (onRecommendationsSettled_in_range r (ui w) Hw) as H.
    by destruct (run (onRecommendationsSettled r) (ui w)).
Qed.

(** X4: however its handlers are invoked, the quiz page keeps the step on
    one of the questions and keeps exactly one answer slot per question, so
    the question it renders ([QUESTIONS[step]]) always exists. *)
Theorem X4_step_stays_on_a_question w :
  reachable w ->
  (step (ui w) < total)%nat
  /\ length (answers (ui w)) = total
  /\ exists q, current (ui w) = Some q.
Proof.
  intros Hw.
  assert (Hin : in_range (ui w)).
  { induction Hw as [|w ev _ IH]; [apply initial_in_range |].
    by apply step_world_in_range. }
  destruct Hin as [Hstep Hlen]. repeat split; try done.
  apply lookup_lt_is_Some_2. exact Hstep.
Qed.

Lemma X4_step_stays_on_a_question_witness :
  (step (ui submitted_world) < total)%nat
  /\ length (answers (ui submitted_world)) = total
  /\ exists q, current (ui submitted_world) = Some q.
Proof.
  apply X4_step_stays_on_a_question, reachable_run_events, reachable_initial.
Defined.

Lemma dispatch_tracked h w : guarded h -> tracked w -> tracked (dispatch h w).
Proof.
  intros Hh Hw. unfold tracked in *.
  rewrite dispatch_ui, dispatch_in_flight, length_app.
  destruct (Hh (ui w)) as [[-> ->] | (Hidle & -> & q & ->)].
  - cbn. lia.
  - rewrite Hidle in Hw. rewrite Hw. reflexivity.
Qed.

Lemma settle_tracked i r w : tracked w -> tracked (step_world w (Settle i r)).
Proof.
  intros Hw. cbn [step_world].
  destruct (in_flight w !! i) as [q|] eqn:Hq; [| exact Hw].
  unfold tracked in *.
  pose proof (lookup_lt_Some _ _ _ Hq) as Hi.
  destruct (isSubmitting (ui w)); [| lia].
  rewrite onRecommendationsSettled_run.
  destruct r; cbn [ui in_flight isSubmitting sent_queries requests omap];
    rewrite app_nil_r, length_delete by eauto; lia.
Qed.

(** X5: however its handlers are invoked, [isSubmitting] is up exactly
    while one recommendation request is out: one request in flight when it
    is up, none when it is down.  The "Finding..." state therefore ends as
    soon as the request settles and never shows without a request. *)
Theorem X5_flag_tracks_the_request w :
  reachable w ->
  length (in_flight w) = (if isSubmitting (ui w) then 1 else 0)%nat.
Proof.
  induction 1 as [|w ev _ IH]; [reflexivity |].
  destruct ev; [.. | by apply settle_tracked];
    cbn [step_world]; apply dispatch_tracked;
    auto using updateAnswer_guarded, handleFormSubmit_guarded,
      goBack_guarded, submitRecommendations_guarded.
Qed.

Lemma X5_flag_tracks_the_request_witness :
  length (in_flight submitted_world)
  = (if isSubmitting (ui submitted_world) then 1 else 0)%nat.
Proof.
  apply X5_flag_tracks_the_request, reachable_run_events, reachable_initial.
Defined.

Lemma options_visible :
  forallb (fun q => match kind q with
                    | Choice options =>
                        forallb (fun o => Js.truthy (Js.trim o)) options
                    | Text _ => true
                    end) QUESTIONS = true.
Proof. vm_compute. reflexivity. Qed.

Lemma offered_option_visible i q options (value : Js.str) :
  QUESTIONS !! i = Some q -> kind q = Choice options -> value ∈ options ->
  Js.trim value <> [].
Proof.
  intros Hq Hkind Hin.
  pose proof options_visible as Hall. rewrite forallb_forall in Hall.
  specialize (Hall q). rewrite Hkind in Hall.
  assert (Hopts : forallb (fun o => Js.truthy (Js.trim o)) options = true).
  { apply Hall, list_elem_of_In. eapply list_elem_of_lookup_2, Hq. }
  rewrite forallb_forall in Hopts.
  apply truthy_true, Hopts, list_elem_of_In, Hin.
Qed.

(** An answer that lets the quiz proceed is not blank, as long as the
    answers to choice questions come from the offered options. *)
Lemma canProceed_answered s :
  offered (answers s) -> canProceed s = true ->
  Js.trim (currentAnswer s) <> [].
Proof.
  intros Hoff. unfold canProceed, current, currentAnswer.
  destruct (QUESTIONS !! step s) as [q|] eqn:Hq; [| discriminate].
  destruct (kind q) as [options | placeholder] eqn:Hkind.
  - intros Hne%negb_true_iff%bool_decide_eq_false.
    destruct (Hoff _ _ _ Hq Hkind) as [Hnil | Hin]; [done |].
    eapply offered_option_visible; eauto.
  - intros Hlen%bool_decide_eq_true.
    intros Hnil. rewrite Hnil in Hlen. cbn in Hlen. lia.
Qed.

Lemma answered_canProceed s :
  in_range s -> Js.trim (currentAnswer s) <> [] -> canProceed s = true.
Proof.
  intros [Hstep _] Hans. unfold canProceed, current.
  destruct (lookup_lt_is_Some_2 QUESTIONS (step s) Hstep) as [q ->].
  destruct (kind q).
  - apply negb_true_iff, bool_decide_eq_false. intros Hnil.
    by rewrite Hnil in Hans.
  - apply bool_decide_eq_true.
    destruct (Js.trim (currentAnswer s)); [done | cbn; lia].
Qed.

Lemma buildQuery_nil_iff answers :
  buildQuery answers = [] <->
  forall i, (i < total)%nat -> Js.trim (answer_at answers i) = [].
Proof.
  rewrite buildQuery_described. unfold described_query.
  rewrite join_nil_iff by apply described_parts_nonempty.
  rewrite <- (answered_from_nil 0 QUESTIONS answers).
  split; [apply map_eq_nil | by intros ->].
Qed.

Lemma answered_query_nonempty answers :
  (forall i, (i < total)%nat -> Js.trim (answer_at answers i) <> []) ->
  Js.truthy (buildQuery answers) = true.
Proof.
  intros Hall. apply truthy_true. intros Hnil.
  apply (Hall 0%nat); [vm_compute; lia |].
  apply buildQuery_nil_iff; [exact Hnil | vm_compute; lia].
Qed.

Lemma sound_initial : sound initial_world.
Proof.
  split; [apply initial_in_range |]. split; [| split; [| split]].
  - intros i q options Hq _. left.
    apply lookup_lt_Some in Hq. revert Hq.
    do 11 (destruct i as [|i]; [reflexivity |]). cbn. lia.
  - intros i Hi. cbn in Hi. lia.
  - intros q Hq. by apply elem_of_nil in Hq.
  - discriminate.
Qed.

Lemma sound_step w ev :
  sound w -> enabled w ev = true -> sound (step_world w ev).
Proof.
  intros (Hrange & Hoff & Hbefore & Hout & Hmsg) Hen.
  destruct ev as [value | | | | i r]; cbn [step_world enabled] in *.
  - (* an answer *)
    unfold sound. rewrite dispatch_ui, dispatch_in_flight, updateAnswer_run.
    cbn [fst snd answers step message sent_queries requests omap].
    rewrite app_nil_r.
    split; [| split; [| split; [| split]]]; [| | | exact Hout |].
    + pose proof (updateAnswer_in_range value _ Hrange) as H.
      by rewrite updateAnswer_run in H.
    + intros j q options Hq Hkind. rewrite answer_at_array_set.
      destruct (decide (j = step (ui w))) as [-> | _]; [| by eapply Hoff].
      right. unfold current in Hen. rewrite Hq, Hkind in Hen.
      by apply bool_decide_eq_true in Hen.
    + intros j Hj. cbn [step answers] in *. rewrite answer_at_array_set.
      destruct (decide _) as [-> | _]; [lia | by apply Hbefore].
    + destruct (Js.truthy (message (ui w))); [discriminate | exact Hmsg].
  - (* the submit button *)
    apply negb_true_iff, orb_false_iff in Hen as [Hcan%negb_false_iff Hidle].
    pose proof (canProceed_answered _ Hoff Hcan) as Hcur.
    unfold sound.
    rewrite dispatch_ui, dispatch_in_flight, handleFormSubmit_run, goNext_run.
    rewrite Hcan, Hidle. cbn [negb].
    destruct (decide (step (ui w) < total - 1)%nat) as [Hlt | Hlast].
    + cbn [fst snd answers step message sent_queries requests omap].
      rewrite app_nil_r.
      split; [| split; [| split; [| split]]]; try done.
      * destruct Hrange. split; cbn [step answers]; [lia | done].
      * intros j Hj. cbn [step answers] in *.
        destruct (decide (j = step (ui w))) as [-> | Hne];
          [exact Hcur | apply Hbefore; lia].
    + assert (Hall : forall j, (j < total)%nat ->
                               Js.trim (answer_at (answers (ui w)) j) <> []).
      { intros j Hj. destruct Hrange as [Hstep _].
        destruct (decide (j = step (ui w))) as [-> | Hne];
          [exact Hcur | apply Hbefore; lia]. }
      rewrite (answered_query_nonempty _ Hall). cbn [negb].
      cbn [fst snd answers step message sent_queries requests omap
             Http.payload].
      split; [| split; [| split; [| split]]]; try done.
      intros q [Hq | Hq%list_elem_of_singleton]%elem_of_app;
        [by apply Hout | subst q].
      by exists (answers (ui w)).
  - (* the back button *)
    apply negb_true_iff, bool_decide_eq_false in Hen.
    unfold sound. rewrite dispatch_ui, dispatch_in_flight, goBack_run.
    destruct (decide (0 < step (ui w))%nat) as [Hpos | Hzero]; [| lia].
    cbn [fst snd answers step message sent_queries requests omap].
    rewrite app_nil_r.
    split; [| split; [| split; [| split]]]; try done.
    + destruct Hrange. split; cbn [step answers]; [lia | done].
    + intros j Hj. cbn [step answers] in *. apply Hbefore. lia.
  - discriminate.
  - (* a request settles *)
    destruct (in_flight w !! i) as [q|] eqn:Hq; [| by repeat split].
    rewrite onRecommendationsSettled_run.
    assert (Hrest : forall q', q' ∈ delete i (in_flight w) ++ [] ->
                               complete_query q').
    { intros q' Hq'. rewrite app_nil_r in Hq'.
      by apply Hout, (list_elem_of_delete_inv _ i). }
    destruct r; (split; [| split; [| split; [| split]]]); try done.
Qed.

Lemma sound_run_events evs w :
  sound w -> feasible w evs = true -> sound (run_events w evs).
Proof.
  revert w. induction evs as [|ev evs IH]; intros w Hw Hevs; [exact Hw |].
  cbn [feasible] in Hevs. apply andb_true_iff in Hevs as [Hev Hevs].
  cbn [run_events fold_left]. apply IH; [by apply sound_step | exact Hevs].
Qed.

(** X6: in every session the rendered page allows (offered choices, typed
    text, enabled buttons), each recommendation request carries the query
    of a completely answered quiz, no answer blank; and the message "Please
    answer the questions before submitting." never shows. *)
Theorem X6_only_complete_quizzes_are_sent evs :
  feasible initial_world evs = true ->
  (forall q, q ∈ in_flight (run_events initial_world evs) ->
             exists answers,
               q = buildQuery answers
               /\ forall i, (i < total)%nat ->
                            Js.trim (answer_at answers i) <> [])
  /\ message (ui (run_events initial_world evs)) <> unanswered_message.
Proof.
  intros Hevs.
  destruct (sound_run_events evs initial_world sound_initial Hevs)
    as (_ & _ & _ & Hout & Hmsg).
  split; [exact Hout | exact Hmsg].
Qed.

Lemma X6_only_complete_quizzes_are_sent_witness :
  exists q answers,
    in_flight submitted_world = [q]
    /\ q = buildQuery answers
    /\ forall i, (i < total)%nat -> Js.trim (answer_at answers i) <> [].
Proof.
  assert (Hevs : feasible initial_world fill_in_and_submit = true)
    by (vm_compute; reflexivity).
  destruct (X6_only_complete_quizzes_are_sent fill_in_and_submit Hevs)
    as [Hout _].
  assert (Hone : in_flight submitted_world
                 = [buildQuery (answers (ui submitted_world))])
    by (vm_compute; reflexivity).
  destruct (Hout (buildQuery (answers (ui submitted_world))))
    as (ans & Hq & Hall).
  { vm_compute. left. }
  exists (buildQuery (answers (ui submitted_world))), ans.
  split; [exact Hone | split; [exact Hq | exact Hall]].
Defined.

(** X7: going back loses no progress.  In every session the page allows,
    when the quiz is past its first question and no request is out, the Back
    button is enabled, after pressing it the Next button is enabled, and
    pressing Next there comes back to the same question, with the same
    answers and without sending anything. *)
Theorem X7_back_then_next_returns evs :
  feasible initial_world evs = true ->
  (0 < step (ui (run_events initial_world evs)))%nat ->
  isSubmitting (ui (run_events initial_world evs)) = false ->
  enabled (run_events initial_world evs) Back = true
  /\ enabled (step_world (run_events initial_world evs) Back) Next = true
  /\ step (ui (step_world (step_world (run_events initial_world evs) Back) Next))
     = step (ui (run_events initial_world evs))
  /\ answers (ui (step_world (step_world (run_events initial_world evs) Back)
                    Next))
     = answers (ui (run_events initial_world evs))
  /\ in_flight (step_world (step_world (run_events initial_world evs) Back)
                  Next)
     = in_flight (run_events initial_world evs).
Proof.
  intros Hevs Hpos Hidle.
  pose proof (sound_run_events evs initial_world sound_initial Hevs)
    as (Hrange & _ & Hbefore & _).
  set (w := run_events initial_world evs) in *.
  assert (Hback : run goBack (ui w)
                  = (mk (step (ui w) - 1) (answers (ui w)) (globalRec (ui w))
                       (localRec (ui w)) [] (isSubmitting (ui w))
                       (showResults (ui w)), [])).
  { rewrite goBack_run. by destruct (decide _). }
  assert (Hcan : canProceed (ui (step_world w Back)) = true).
  { cbn [step_world]. rewrite dispatch_ui, Hback. cbn [fst].
    destruct Hrange as [Hstep Hlen].
    apply answered_canProceed; [split; cbn [step answers]; [lia | done] |].
    unfold currentAnswer. cbn [step answers]. apply Hbefore. lia. }
  split; [| split].
  { cbn [enabled]. apply negb_true_iff, bool_decide_eq_false. lia. }
  { cbn [enabled]. unfold submit_disabled. rewrite Hcan.
    cbn [step_world]. rewrite dispatch_ui, Hback. cbn [fst isSubmitting].
    by rewrite Hidle. }
  cbn [step_world] in *.
  rewrite !dispatch_in_flight, !dispatch_ui, handleFormSubmit_run, goNext_run.
  rewrite dispatch_ui in Hcan. rewrite Hcan. cbn [negb].
  rewrite Hback. cbn [fst snd step answers sent_queries requests omap].
  destruct Hrange as [Hstep _].
  destruct (decide _) as [_ | Hlast]; [| lia].
  cbn [fst snd step answers sent_queries requests omap].
  rewrite !app_nil_r. repeat split; try done; lia.
Qed.

Lemma X7_back_then_next_returns_witness :
  enabled (step_world (run_events initial_world one_answer_session) Back) Next
  = true
  /\ step (ui (step_world
                 (step_world (run_events initial_world one_answer_session) Back)
                 Next)) = 1%nat.
Proof.
  assert (Hevs : feasible initial_world one_answer_session = true)
    by (vm_compute; reflexivity).
  assert (Hpos : (0 < step (ui (run_events initial_world
                                  one_answer_session)))%nat)
    by (vm_compute; lia).
  assert (Hidle : isSubmitting (ui (run_events initial_world
                                      one_answer_session)) = false)
    by (vm_compute; reflexivity).
  destruct (X7_back_then_next_returns one_answer_session Hevs Hpos Hidle)
    as (_ & Hnext & Hstep & _).
  split; [exact Hnext |]. rewrite Hstep. vm_compute. reflexivity.
Defined.

Lemma goBack_quiet : quiet goBack.
Proof.
  intros s. rewrite goBack_run. destruct (decide _); repeat split; try done;
    intros q Hq; by apply elem_of_nil in Hq.
Qed.

Lemma submitRecommendations_quiet : quiet submitRecommendations.
Proof.
  intros s. rewrite submitRecommendations_run.
  destruct (isSubmitting s);
    [repeat split; try done; intros q Hq; by apply elem_of_nil in Hq |].
  destruct (Js.truthy (buildQuery (answers s))); cbn [negb];
    repeat split; try done; intros q Hq.
  - by apply list_elem_of_singleton in Hq.
  - by apply elem_of_nil in Hq.
Qed.

Lemma handleFormSubmit_quiet : quiet handleFormSubmit.
Proof.
  intros s. rewrite handleFormSubmit_run, goNext_run.
  change (sent_queries (PreventDefault :: ?es)) with (sent_queries es).
  destruct (canProceed s); cbn [negb];
    [| repeat split; try done; intros q Hq; by apply elem_of_nil in Hq].
  destruct (decide _);
    [repeat split; try done; intros q Hq; by apply elem_of_nil in Hq |].
  destruct (isSubmitting s);
    [repeat split; try done; intros q Hq; by apply elem_of_nil in Hq |].
  destruct (Js.truthy (buildQuery (answers s))); cbn [negb];
    repeat split; try done; intros q Hq.
  - by apply list_elem_of_singleton in Hq.
  - by apply elem_of_nil in Hq.
Qed.

Lemma dispatch_quiet h w :
  quiet h -> current_queries w -> up_to_date w ->
  current_queries (dispatch h w) /\ up_to_date (dispatch h w).
Proof.
  intros Hh Hout Hfresh. destruct (Hh (ui w)) as (Hans & Hshow & Hsent).
  unfold current_queries, up_to_date.
  rewrite dispatch_ui, dispatch_in_flight, dispatch_shown_for, Hans.
  split.
  - intros q [Hq | Hq]%elem_of_app; [by apply Hout | by apply Hsent].
  - intros Hshown. by apply Hfresh, Hshow.
Qed.

Lemma calm_step w ev :
  current_queries w -> up_to_date w ->
  (forall value, ev = Answer value -> in_flight w = []) ->
  current_queries (step_world w ev) /\ up_to_date (step_world w ev).
Proof.
  intros Hout Hfresh Hcalm.
  destruct ev as [value | | | | i r]; cbn [step_world].
  - unfold current_queries, up_to_date.
    rewrite dispatch_ui, dispatch_in_flight, updateAnswer_run.
    rewrite (Hcalm value eq_refl). split; [| discriminate].
    intros q Hq. by apply elem_of_nil in Hq.
  - by apply dispatch_quiet, Hfresh; [apply handleFormSubmit_quiet |].
  - by apply dispatch_quiet, Hfresh; [apply goBack_quiet |].
  - by apply dispatch_quiet, Hfresh; [apply submitRecommendations_quiet |].
  - destruct (in_flight w !! i) as [q|] eqn:Hq; [| by split].
    rewrite onRecommendationsSettled_run.
    assert (Hcur : q = buildQuery (answers (ui w)))
      by (eapply Hout, list_elem_of_lookup_2, Hq).
    assert (Hrest : forall q', q' ∈ delete i (in_flight w) ++ [] ->
                               q' = buildQuery (answers (ui w))).
    { intros q' Hq'. rewrite app_nil_r in Hq'.
      by apply Hout, (list_elem_of_delete_inv _ i). }
    destruct r; (split; [exact Hrest |]); [| discriminate].
    intros _. cbn [shown_for ui answers fst]. by f_equal.
Qed.

Lemma calm_run_events evs w :
  current_queries w -> up_to_date w -> calm w evs = true ->
  up_to_date (run_events w evs).
Proof.
  revert w. induction evs as [|ev evs IH]; intros w Hout Hfresh Hevs;
    [exact Hfresh |].
  cbn [calm] in Hevs. apply andb_true_iff in Hevs as [Hev Hevs].
  destruct (calm_step w ev Hout Hfresh) as [Hout' Hfresh'].
  { intros value ->. by apply bool_decide_eq_true in Hev. }
  cbn [run_events fold_left]. by apply IH.
Qed.

(** X8: as long as no answer is edited while a request is out, whatever
    else happens (Next, Back, replies arriving, repeated submissions), the
    recommendations on display are those of the query that the current
    answers build. *)
Theorem X8_results_fresh_without_late_edits evs :
  calm initial_world evs = true ->
  showResults (ui (run_events initial_world evs)) = true ->
  shown_for (run_events initial_world evs)
  = Some (buildQuery (answers (ui (run_events initial_world evs)))).
Proof.
  intros Hevs. apply (calm_run_events evs initial_world); [| | exact Hevs].
  - intros q Hq. by apply elem_of_nil in Hq.
  - discriminate.
Qed.

Lemma X8_results_fresh_without_late_edits_witness :
  shown_for (run_events initial_world answered_session)
  = Some (buildQuery (answers (ui (run_events initial_world
                                     answered_session)))).
Proof.
  assert (Hevs : calm initial_world answered_session = true)
    by (vm_compute; reflexivity).
  assert (Hshow : showResults (ui (run_events initial_world answered_session))
                  = true)
    by (vm_compute; reflexivity).
  exact (X8_results_fresh_without_late_edits answered_session Hevs Hshow).
Defined.

(** X16: in every session the page allows, an enabled submit button always
    makes progress: pressing it either moves to the next question, or, on
    the last question, sends exactly one request with the query of the
    current answers and raises [isSubmitting]; in both cases the message is
    cleared, so none of the "please answer" messages of [goNext] and
    [submitRecommendations] can show. *)
Theorem X16_enabled_next_makes_progress evs :
  feasible initial_world evs = true ->
  enabled (run_events initial_world evs) Next = true ->
  message (ui (step_world (run_events initial_world evs) Next)) = []
  /\ ((step (ui (step_world (run_events initial_world evs) Next))
       = step (ui (run_events initial_world evs)) + 1
       /\ in_flight (step_world (run_events initial_world evs) Next)
          = in_flight (run_events initial_world evs))%nat
      \/ (step (ui (run_events initial_world evs)) = total - 1
          /\ isSubmitting
               (ui (step_world (run_events initial_world evs) Next)) = true
          /\ in_flight (step_world (run_events initial_world evs) Next)
             = in_flight (run_events initial_world evs)
               ++ [buildQuery (answers (ui (run_events initial_world evs)))])%nat).
Proof.
  intros Hevs Hen.
  pose proof (sound_run_events evs initial_world sound_initial Hevs)
    as (Hrange & Hoff & Hbefore & _).
  set (w := run_events initial_world evs) in *.
  cbn [enabled] in Hen.
  apply negb_true_iff, orb_false_iff in Hen as [Hcan%negb_false_iff Hidle].
  pose proof (canProceed_answered _ Hoff Hcan) as Hcur.
  cbn [step_world].
  rewrite dispatch_in_flight, dispatch_ui, handleFormSubmit_run, goNext_run.
  rewrite Hcan, Hidle. cbn [negb].
  destruct Hrange as [Hstep _].
  destruct (decide (step (ui w) < total - 1)%nat) as [Hlt | Hlast].
  - cbn [fst snd step message sent_queries requests omap].
    rewrite app_nil_r. split; [done | by left].
  - assert (Hall : forall j, (j < total)%nat ->
                             Js.trim (answer_at (answers (ui w)) j) <> []).
    { intros j Hj.
      destruct (decide (j = step (ui w))) as [-> | Hne];
        [exact Hcur | apply Hbefore; lia]. }
    rewrite (answered_query_nonempty _ Hall). cbn [negb].
    cbn [fst snd step message isSubmitting sent_queries requests omap
           Http.payload].
    split; [done | right]. repeat split; try done. lia.
Qed.

Lemma X16_enabled_next_makes_progress_witness :
  step (ui (step_world
              (run_events initial_world [Answer (first_answer_of_quiz)])
              Next)) = 1%nat.
Proof.
  assert (Hevs : feasible initial_world [Answer first_answer_of_quiz] = true)
    by (vm_compute; reflexivity).
  assert (Hen : enabled (run_events initial_world [Answer first_answer_of_quiz])
                  Next = true)
    by (vm_compute; reflexivity).
  destruct (X16_enabled_next_makes_progress _ Hevs Hen)
    as [_ [[Hstep _] | [Hlast _]]].
  - rewrite Hstep. vm_compute. reflexivity.
  - vm_compute in Hlast. discriminate.
Defined.

End SessionFacts.

(** ** What the requests carry *)

Section QueryShapeFacts.

Import Ends.

Lemma visible_ends_trim (s : Js.str) :
  starts_visible s -> ends_visible s -> Js.trim s = s.
Proof.
  intros (c & Hc & Hvis) (d & Hd & Hvis'). unfold Js.trim.
  rewrite trim_start_visible.
  - apply trim_end_visible. intros r e ->.
    rewrite last_snoc in Hd. congruence.
  - intros e r ->. cbn in Hc. congruence.
Qed.

Lemma trim_starts_visible (s : Js.str) :
  Js.trim s <> [] -> starts_visible (Js.trim s).
Proof.
  intros Hne. destruct (trim_spec s) as (_ & _ & _ & _ & _ & Hhead & _).
  destruct (Js.trim s) as [|c r] eqn:E; [done |].
  exists c. split; [reflexivity | by apply (Hhead c r)].
Qed.

Lemma trim_ends_visible (s : Js.str) :
  Js.trim s <> [] -> ends_visible (Js.trim s).
Proof.
  intros Hne. destruct (trim_spec s) as (_ & _ & _ & _ & _ & _ & Hlast).
  destruct (list.last (Js.trim s)) as [c|] eqn:E.
  - exists c. split; [exact E |].
    apply last_Some in E as [r Hr]. by apply (Hlast r c).
  - by apply last_None in E.
Qed.

Lemma trim_idempotent (s : Js.str) : Js.trim (Js.trim s) = Js.trim s.
Proof.
  destruct (decide (Js.trim s = [])) as [-> | Hne]; [reflexivity |].
  by apply visible_ends_trim; [apply trim_starts_visible | apply trim_ends_visible].
Qed.

Lemma starts_visible_app (a b : Js.str) :
  starts_visible a -> starts_visible (a ++ b).
Proof.
  intros (c & Hc & Hvis). exists c. split; [| exact Hvis].
  rewrite head_app. by rewrite Hc.
Qed.

Lemma ends_visible_app (a b : Js.str) :
  ends_visible b -> ends_visible (a ++ b).
Proof.
  intros (c & Hc & Hvis). exists c. split; [| exact Hvis].
  rewrite last_app. by rewrite Hc.
Qed.

Lemma join_visible_ends sep (parts : list Js.str) :
  parts <> [] ->
  Forall (fun p => starts_visible p /\ ends_visible p) parts ->
  starts_visible (Js.join sep parts) /\ ends_visible (Js.join sep parts).
Proof.
  induction parts as [|p rest IH]; [done |].
  intros _ Hall. inversion_clear Hall as [|? ? [Hs He] Hrest].
  destruct rest as [|p' rest']; [by split |].
  destruct IH as [_ He']; [done | exact Hrest |].
  change (Js.join sep (p :: p' :: rest'))
    with (p ++ sep ++ Js.join sep (p' :: rest')).
  split; [by apply starts_visible_app | by do 2 apply ends_visible_app].
Qed.

Lemma answered_from_parts k qs answers q a :
  (q, a) ∈ Quiz.answered_from k qs answers ->
  q ∈ qs /\ a <> [] /\ exists i, a = Js.trim (Quiz.answer_at answers i).
Proof.
  revert k. induction qs as [|q' rest IH]; intros k; cbn [Quiz.answered_from].
  - intros H. by apply elem_of_nil in H.
  - case_bool_decide as Hblank.
    + intros H. destruct (IH _ H) as (? & ? & ?). split; [by right | done].
    + intros H. apply elem_of_cons in H as [[= -> ->] | H].
      * split; [by left |]. split; [done | eauto].
      * destruct (IH _ H) as (? & ? & ?). split; [by right | done].
Qed.

Lemma prompt_starts_visible q : q ∈ Quiz.QUESTIONS -> starts_visible (Quiz.prompt q).
Proof.
  intros Hq. pose proof prompts_start_visible as Hvis.
  rewrite forallb_forall in Hvis.
  specialize (Hvis q (proj1 (list_elem_of_In _ _) Hq)).
  destruct (Quiz.prompt q) as [|c r]; [discriminate |].
  exists c. split; [reflexivity | by apply negb_true_iff].
Qed.

Lemma buildQuery_visible_ends answers :
  Quiz.buildQuery answers <> [] ->
  starts_visible (Quiz.buildQuery answers)
  /\ ends_visible (Quiz.buildQuery answers).
Proof.
  rewrite buildQuery_described. unfold Quiz.described_query. intros Hne.
  apply join_visible_ends.
  - intros Hnil. by rewrite Hnil in Hne.
  - apply Forall_map, Forall_forall. intros [q a] Hqa.
    apply list_elem_of_In, answered_from_parts in Hqa
      as (Hq & Ha & i & ->).
    split.
    + by apply starts_visible_app, prompt_starts_visible.
    + by do 2 apply ends_visible_app; apply trim_ends_visible.
Qed.

(** X9: every recommendation request that either front end sends carries a
    query that is not empty and has no white space at either end (trimming
    it changes nothing), so neither page can send the backend a blank
    query. *)
Theorem X9_sent_queries_are_trimmed :
  (forall (s : Docs.state) r,
      r ∈ requests (run Docs.handleRecommend s).2 ->
      exists q, query_of r = Some q /\ q <> [] /\ Js.trim q = q)
  /\ (forall (s : Quiz.state) r,
      r ∈ requests (run Quiz.submitRecommendations s).2 ->
      exists q, query_of r = Some q /\ q <> [] /\ Js.trim q = q)
  /\ (forall (s : Quiz.state) r,
      r ∈ requests (run Quiz.handleFormSubmit s).2 ->
      exists q, query_of r = Some q /\ q <> [] /\ Js.trim q = q).
Proof.
  assert (Hquiz : forall answers,
             Js.truthy (Quiz.buildQuery answers) = true ->
             Quiz.buildQuery answers <> []
             /\ Js.trim (Quiz.buildQuery answers) = Quiz.buildQuery answers).
  { intros answers Hne%truthy_true. split; [exact Hne |].
    by apply visible_ends_trim; apply buildQuery_visible_ends. }
  split; [| split].
  - intros s r. rewrite handleRecommend_run.
    destruct (Js.truthy (Js.trim (Docs.query s))) eqn:Hq; cbn [negb snd].
    + intros ->%list_elem_of_singleton. eexists. split; [reflexivity |].
      split; [by apply truthy_true | apply trim_idempotent].
    + intros H. by apply elem_of_nil in H.
  - intros s r. rewrite submitRecommendations_run.
    destruct (Quiz.isSubmitting s); [intros H; by apply elem_of_nil in H |].
    destruct (Js.truthy (Quiz.buildQuery (Quiz.answers s))) eqn:Hq;
      cbn [negb snd].
    + intros ->%list_elem_of_singleton. eexists. split; [reflexivity |].
      by apply Hquiz.
    + intros H. by apply elem_of_nil in H.
  - intros s r. rewrite handleFormSubmit_run, goNext_run.
    change (requests (PreventDefault :: ?es)) with (requests es).
    destruct (Quiz.canProceed s); cbn [negb];
      [| intros H; by apply elem_of_nil in H].
    destruct (decide _); [intros H; by apply elem_of_nil in H |].
    destruct (Quiz.isSubmitting s); [intros H; by apply elem_of_nil in H |].
    destruct (Js.truthy (Quiz.buildQuery (Quiz.answers s))) eqn:Hq;
      cbn [negb snd].
    + intros ->%list_elem_of_singleton. eexists. split; [reflexivity |].
      by apply Hquiz.
    + intros H. by apply elem_of_nil in H.
Qed.

Lemma X9_sent_queries_are_trimmed_witness :
  exists r q,
    requests (run Docs.handleRecommend
                (Docs.mk (js "  desert planet  ") None None [])).2 = [r]
    /\ query_of r = Some q /\ q = js "desert planet" /\ Js.trim q = q.
Proof.
  destruct X9_sent_queries_are_trimmed as [Hdocs _].
  set (s := Docs.mk (js "  desert planet  ") None None []).
  set (r := Http.mk Http.POST Http.ApiRecommendations Http.json_headers
              (Http.JsonQuery (js "desert planet"))).
  assert (Hsent : r ∈ requests (run Docs.handleRecommend s).2)
    by (vm_compute; left).
  destruct (Hdocs s r Hsent) as (q & Hq & _ & Htrim).
  exists r, q. split; [vm_compute; reflexivity |].
  split; [exact Hq |]. split; [| exact Htrim].
  cbn in Hq. congruence.
Defined.

End QueryShapeFacts.

(** ** The review form *)

Section FormFacts.

Import Blog Ends.

Lemma digit_not_white_space c : is_digit c -> Js.is_white_space c = false.
Proof.
  intros [Hlo Hhi]. unfold Js.is_white_space.
  repeat match goal with
         | |- context [N.leb ?a ?b] => destruct (N.leb_spec a b); try lia
         | |- context [N.eqb ?a ?b] => destruct (N.eqb_spec a b); try lia
         end;
    reflexivity.
Qed.

Lemma digit_value_digit c : is_digit c -> Js.digit_value c = Some (digit_of c).
Proof.
  intros [Hlo Hhi]. unfold Js.digit_value.
  destruct (N.leb_spec 48 c); [| lia]. destruct (N.leb_spec c 57); [| lia].
  reflexivity.
Qed.

Lemma digit_value_other c : ~ is_digit c -> Js.digit_value c = None.
Proof.
  intros Hc. unfold Js.digit_value, is_digit in *.
  destruct (N.leb_spec 48 c); [| reflexivity].
  destruct (N.leb_spec c 57); [lia | reflexivity].
Qed.

Lemma leading_digits_app ds rest :
  Forall is_digit ds ->
  (forall c r, rest = c :: r -> ~ is_digit c) ->
  Js.leading_digits (ds ++ rest) = map digit_of ds.
Proof.
  intros Hds Hrest.
  induction Hds as [|c ds Hc _ IH]; cbn [app map Js.leading_digits].
  - destruct rest as [|c r]; [reflexivity |]. cbn [Js.leading_digits].
    by rewrite (digit_value_other c (Hrest c r eq_refl)).
  - by rewrite (digit_value_digit c Hc), IH.
Qed.

(** [parseInt] reads the digits in front and ignores what follows them. *)
Lemma parseInt10_digits ds rest :
  ds <> [] -> Forall is_digit ds ->
  (forall c r, rest = c :: r -> ~ is_digit c) ->
  Js.parseInt10 (ds ++ rest)
  = Js.to_number (Js.digits_value (map digit_of ds)).
Proof.
  intros Hne Hds Hrest.
  destruct ds as [|c ds']; [done |].
  pose proof (Forall_inv Hds) as [Hlo Hhi].
  assert (Hc : c = 48 \/ c = 49 \/ c = 50 \/ c = 51 \/ c = 52 \/ c = 53
               \/ c = 54 \/ c = 55 \/ c = 56 \/ c = 57) by lia.
  clear Hlo Hhi.
  assert (Hparse :
            Js.parseInt10 ((c :: ds') ++ rest)
            = match Js.leading_digits ((c :: ds') ++ rest) with
              | [] => None
              | d :: more => Js.to_number (1 * Js.digits_value (d :: more))%Z
              end).
  { repeat (destruct Hc as [-> | Hc]; [reflexivity |]). by subst. }
  rewrite Hparse, (leading_digits_app _ _ Hds Hrest).
  cbn [map]. by rewrite Z.mul_1_l.
Qed.

Lemma digits_value_from acc (ds : list Z) :
  (0 <= acc)%Z -> Forall (fun d => 0 <= d)%Z ds ->
  (0 <= fold_left (fun a d => 10 * a + d) ds acc)%Z.
Proof.
  intros Hacc Hds. revert acc Hacc.
  induction Hds as [|d ds Hd _ IH]; intros acc Hacc; [exact Hacc |].
  cbn [fold_left]. apply IH. lia.
Qed.

Lemma to_number_exact n :
  (0 <= n < 2 ^ 53)%Z -> Js.to_number n = Some n.
Proof.
  intros [Hlo Hhi]. unfold Js.to_number.
  rewrite Z.abs_eq by exact Hlo.
  by rewrite (proj2 (Z.ltb_lt _ _) Hhi).
Qed.

(** X10: when the leading digits of the score field write a whole number
    below 2^53, the score that the form transmits is that number; whatever
    follows the digits (a fraction, an exponent, any text) is ignored, not
    rounded and not rejected. *)
Theorem X10_score_is_the_leading_digits s result p ds rest :
  score s = ds ++ rest ->
  ds <> [] -> Forall is_digit ds ->
  (forall c r, rest = c :: r -> ~ is_digit c) ->
  (Js.digits_value (map digit_of ds) < 2 ^ 53)%Z ->
  p ∈ transmitted s result ->
  Payload.score p = Some (Js.digits_value (map digit_of ds)).
Proof.
  intros Hscore Hne Hds Hrest Hsmall. rewrite transmitted_run.
  destruct (_ || _); [intros H; by apply elem_of_nil in H |].
  intros ->%list_elem_of_singleton. cbn [Payload.score].
  rewrite Hscore, parseInt10_digits by assumption.
  apply to_number_exact. split; [| exact Hsmall].
  apply digits_value_from; [done |].
  apply Forall_map, Forall_forall. intros c _. unfold digit_of. lia.
Qed.

Lemma X10_score_is_the_leading_digits_witness :
  exists p,
    transmitted fractional_score_form None = [p]
    /\ Payload.score p = Some 7%Z.
Proof.
  set (p := Payload.mk (js "A. Lee") (js "Quiet Nights") (js "a slow drama")
              (Some 7%Z) None).
  assert (Hsent : p ∈ transmitted fractional_score_form None)
    by (vm_compute; left).
  assert (Hdigits : Forall is_digit (js "7")).
  { constructor; [unfold is_digit; cbn; lia | constructor]. }
  assert (Hrest : forall c r, js ".9" = c :: r -> ~ is_digit c).
  { intros c r [= <- _]. unfold is_digit. cbn. lia. }
  assert (Hsmall : (Js.digits_value (map digit_of (js "7")) < 2 ^ 53)%Z)
    by (vm_compute; reflexivity).
  exists p. split; [vm_compute; reflexivity |].
  exact (X10_score_is_the_leading_digits fractional_score_form None p
           (js "7") (js ".9") eq_refl ltac:(discriminate) Hdigits Hrest
           Hsmall Hsent).
Defined.

(** X11: a transmitted review carries an image exactly when a file was
    picked and its read ended with non-empty data, and then the image is
    that data; when the read fails the review is still transmitted, without
    image. *)
Theorem X11_image_needs_a_read_file s result p :
  p ∈ transmitted s result ->
  (forall data,
      Payload.image p = Some data <->
      is_Some (imageFile s) /\ result = Some data /\ data <> [])
  /\ transmitted s None = [Payload.mk (Payload.author p) (Payload.title p)
                             (Payload.content p) (Payload.score p) None].
Proof.
  rewrite !transmitted_run.
  destruct (_ || _); [intros H; by apply elem_of_nil in H |].
  intros ->%list_elem_of_singleton. cbn [Payload.image Payload.author
    Payload.title Payload.content Payload.score].
  split; [| by destruct (imageFile s)].
  intros data. destruct (imageFile s) as [f|], result as [d|];
    try (split; [discriminate | by intros ([? ?] & ? & ?)]).
  - destruct (Js.truthy d) eqn:Hd.
    + apply truthy_true in Hd. split.
      * intros [= <-]. by split; [eexists |].
      * by intros (_ & [= <-] & _).
    + apply truthy_false in Hd. subst d. split; [discriminate |].
      by intros (_ & [= <-] & ?).
Qed.

Lemma X11_image_needs_a_read_file_witness :
  exists p,
    transmitted fractional_score_form (Some (js "data:image/png;base64,iVA="))
    = [p]
    /\ Payload.image p = Some (js "data:image/png;base64,iVA=")
    /\ exists p', transmitted fractional_score_form None = [p']
                  /\ Payload.image p' = None.
Proof.
  set (data := js "data:image/png;base64,iVA=").
  set (p := Payload.mk (js "A. Lee") (js "Quiet Nights") (js "a slow drama")
              (Some 7%Z) (Some data)).
  assert (Hsent : p ∈ transmitted fractional_score_form (Some data))
    by (vm_compute; left).
  destruct (X11_image_needs_a_read_file fractional_score_form (Some data) p
              Hsent) as [Himage Hnone].
  exists p. split; [vm_compute; reflexivity |].
  split.
  - apply Himage. split; [by eexists |]. split; [reflexivity | discriminate].
  - eexists. split; [exact Hnone | reflexivity].
Defined.

(** X12: [handleSubmit] leaves the form as typed and keeps no record of a
    submission under way: a second submit event before the reply transmits
    the same payload again. *)
Theorem X12_submit_again_sends_again s result :
  author (run handleSubmit s).1 = author s
  /\ title (run handleSubmit s).1 = title s
  /\ content (run handleSubmit s).1 = content s
  /\ score (run handleSubmit s).1 = score s
  /\ imageFile (run handleSubmit s).1 = imageFile s
  /\ transmitted (run handleSubmit s).1 result = transmitted s result.
Proof.
  assert (Hkept : author (run handleSubmit s).1 = author s
                  /\ title (run handleSubmit s).1 = title s
                  /\ content (run handleSubmit s).1 = content s
                  /\ score (run handleSubmit s).1 = score s
                  /\ imageFile (run handleSubmit s).1 = imageFile s).
  { rewrite handleSubmit_run. cbv zeta. by destruct (_ || _). }
  destruct Hkept as (Ha & Ht & Hc & Hsc & Hi). repeat split; try done.
  by rewrite !transmitted_run, Ha, Ht, Hc, Hsc, Hi.
Qed.

End FormFacts.

(** ** Replies *)

Section ReplyFacts.

Import Blog.

Lemma set_error_message_run data otherwise s0 s :
  set_error_message data otherwise s0 s =
    match error data with
    | Some e => if Js.truthy e then setMessage e s0 s else otherwise s0 s
    | None => otherwise s0 s
    end.
Proof. unfold set_error_message. destruct (error data) as [e|]; [| done].
  by destruct (Js.truthy e). Qed.

Lemma onSubmitSettled_run r s :
  run (onSubmitSettled r) s =
    match r with
    | Http.Fulfilled data =>
        if decide (status data = Some (js "success")) then
          (mk (reviews s) [] [] [] (js "5") None
             (js "Review submitted successfully!") (loadError s),
           [Fetch (Http.mk Http.GET Http.ApiReviews [] Http.NoBody)])
        else
          match error data with
          | Some e =>
              if Js.truthy e
              then (mk (reviews s) (author s) (title s) (content s) (score s)
                      (imageFile s) e (loadError s), [])
              else (s, [])
          | None => (s, [])
          end
    | Http.Rejected =>
        (mk (reviews s) (author s) (title s) (content s) (score s)
           (imageFile s) (js "An error occurred while submitting the review.")
           (loadError s), [])
    end.
Proof.
  destruct s as [rs a t c sc img m le], r as [data|]; [| reflexivity].
  unfold run, onSubmitSettled.
  destruct (decide _); [reflexivity |].
  rewrite set_error_message_run.
  destruct (error data) as [e|]; [| reflexivity].
  by destruct (Js.truthy e).
Qed.

Lemma onDeleteSettled_run r s :
  run (onDeleteSettled r) s =
    match r with
    | Http.Fulfilled data =>
        if decide (status data = Some (js "deleted")) then
          (mk (reviews s) (author s) (title s) (content s) (score s)
             (imageFile s) (js "Review deleted.") (loadError s),
           [Fetch (Http.mk Http.GET Http.ApiReviews [] Http.NoBody)])
        else
          (mk (reviews s) (author s) (title s) (content s) (score s)
             (imageFile s)
             match error data with
             | Some e => if Js.truthy e then e
                         else js "Unable to delete review."
             | None => js "Unable to delete review."
             end (loadError s), [])
    | Http.Rejected =>
        (mk (reviews s) (author s) (title s) (content s) (score s)
           (imageFile s) (js "An error occurred while deleting the review.")
           (loadError s), [])
    end.
Proof.
  destruct s as [rs a t c sc img m le], r as [data|]; [| reflexivity].
  unfold run, onDeleteSettled.
  destruct (decide _); [reflexivity |].
  rewrite set_error_message_run.
  destruct (error data) as [e|]; [| reflexivity].
  by destruct (Js.truthy e).
Qed.

(** X13: the reply to a submission clears the form only on success: when
    the reply says "success" the fields return to their initial values, the
    success message shows and the review list is fetched again (one GET);
    on every other outcome (an error reply, an unrecognised reply, a failed
    request) what the user typed stays in the form and nothing is
    requested. *)
Theorem X13_form_cleared_only_on_success r s :
  (forall data, r = Http.Fulfilled data -> status data = Some (js "success") ->
     run (onSubmitSettled r) s
     = (mk (reviews s) [] [] [] (js "5") None
          (js "Review submitted successfully!") (loadError s),
        [Fetch (Http.mk Http.GET Http.ApiReviews [] Http.NoBody)]))
  /\ ((forall data, r = Http.Fulfilled data ->
                    status data <> Some (js "success")) ->
      author (run (onSubmitSettled r) s).1 = author s
      /\ title (run (onSubmitSettled r) s).1 = title s
      /\ content (run (onSubmitSettled r) s).1 = content s
      /\ score (run (onSubmitSettled r) s).1 = score s
      /\ imageFile (run (onSubmitSettled r) s).1 = imageFile s
      /\ (run (onSubmitSettled r) s).2 = []).
Proof.
  rewrite onSubmitSettled_run. split.
  - intros data -> Hok. by destruct (decide _).
  - intros Hfail. destruct r as [data|]; [| done].
    destruct (decide _) as [Hok|_]; [by destruct (Hfail data eq_refl) |].
    destruct (error data) as [e|]; [| done]. by destruct (Js.truthy e).
Qed.

Lemma X13_form_cleared_only_on_success_witness :
  author (run (onSubmitSettled
                 (Http.Fulfilled {| status := None;
                                    error := Some (js "Invalid score") |}))
            padded_form).1 = author padded_form
  /\ author (run (onSubmitSettled
                    (Http.Fulfilled {| status := Some (js "success");
                                       error := None |}))
               padded_form).1 = [].
Proof.
  split.
  - apply (X13_form_cleared_only_on_success
             (Http.Fulfilled {| status := None;
                                error := Some (js "Invalid score") |})
             padded_form).
    intros data [= <-]. discriminate.
  - by rewrite (proj1 (X13_form_cleared_only_on_success
                         (Http.Fulfilled {| status := Some (js "success");
                                            error := None |}) padded_form)
                  _ eq_refl eq_refl).
Defined.


(** X15: on the page of docs/app.js, asking for recommendations first takes
    the previous results off the page, also when the query turns out blank;
    a reply brings the block back exactly when at least one side is not
    null, so a reply with both sides null shows nothing at all; a failed
    request changes nothing on display but the message. *)
Theorem X15_docs_results_block (s : Docs.state) :
  Docs.render_results (run Docs.handleRecommend s).1 = None
  /\ (forall data,
         Docs.render_results
           (run (Docs.onRecommendationsSettled (Http.Fulfilled data)) s).1
         = match global data, local data with
           | None, None => None
           | g, l => Some {| global_view := show_global g;
                             local_view := show_local l;
                             warning := false |}
           end)
  /\ Docs.render_results
       (run (Docs.onRecommendationsSettled Http.Rejected) s).1
     = Docs.render_results s.
Proof.
  split; [| split].
  - rewrite handleRecommend_run.
    by destruct (Js.truthy (Js.trim (Docs.query s))).
  - intros [g l]. destruct s. by destruct g, l.
  - by destruct s.
Qed.

End ReplyFacts.

(** ** The empty query, on the calls the pages make *)

Section EmptyQueryFacts.

Import Quiz Session.

(** C1: a query that is empty after trimming gets the page's empty-query
    message and no request, and any other query is posted.  In docs/app.js
    this holds for every state of the page.  In the quiz client the page
    calls [submitRecommendations] only from the form's submit button, which
    is disabled while a request is out, never directly; on such a call (no
    request out) an empty built query gets the message "Please answer the
    questions before submitting." and no request, and any other built query
    is posted; and in every session the page allows, the press that submits
    the quiz (Next on the last question) posts the query of the current
    answers, which is not empty.  No handler reads a corpus. *)
Theorem C1_empty_query_error :
  (forall s : Docs.state,
      (Js.trim (Docs.query s) = [] ->
         Docs.message (run Docs.handleRecommend s).1 = Docs.empty_query_message
         /\ requests (run Docs.handleRecommend s).2 = [])
      /\ (Js.trim (Docs.query s) <> [] ->
         requests (run Docs.handleRecommend s).2 =
           [Http.mk Http.POST Http.ApiRecommendations Http.json_headers
              (Http.JsonQuery (Js.trim (Docs.query s)))]))
  /\ (forall w : world,
      enabled w Submit = false
      /\ (enabled w Next = true -> isSubmitting (ui w) = false))
  /\ (forall s : state,
      isSubmitting s = false ->
      (Js.trim (buildQuery (answers s)) = [] ->
         message (run submitRecommendations s).1 = unanswered_message
         /\ requests (run submitRecommendations s).2 = [])
      /\ (Js.trim (buildQuery (answers s)) <> [] ->
         requests (run submitRecommendations s).2 =
           [Http.mk Http.POST Http.ApiRecommendations Http.json_headers
              (Http.JsonQuery (buildQuery (answers s)))]))
  /\ (forall evs,
      feasible initial_world evs = true ->
      enabled (run_events initial_world evs) Next = true ->
      step (ui (run_events initial_world evs)) = (total - 1)%nat ->
      Js.trim (buildQuery (answers (ui (run_events initial_world evs)))) <> []
      /\ requests (run handleFormSubmit (ui (run_events initial_world evs))).2 =
           [Http.mk Http.POST Http.ApiRecommendations Http.json_headers
              (Http.JsonQuery
                 (buildQuery (answers (ui (run_events initial_world evs)))))]).
Proof.
  split; [| split; [| split]].
  - intros s. rewrite handleRecommend_run. split; intros H.
    + by rewrite H.
    + apply truthy_true in H. by rewrite H.
  - intros w. split; [reflexivity |]. cbn [enabled].
    by intros [_ Hidle]%negb_true_iff%orb_false_iff.
  - intros s Hidle. rewrite submitRecommendations_run, Hidle.
    rewrite buildQuery_trim. split; intros H.
    + by rewrite H.
    + apply truthy_true in H. by rewrite H.
  - intros evs Hevs Hen Hlast.
    pose proof (sound_run_events evs initial_world sound_initial Hevs)
      as (Hrange & Hoff & Hbefore & _).
    set (w := run_events initial_world evs) in *.
    cbn [enabled] in Hen.
    apply negb_true_iff, orb_false_iff in Hen as [Hcan%negb_false_iff Hidle].
    pose proof (canProceed_answered _ Hoff Hcan) as Hcur.
    assert (Hall : forall j, (j < total)%nat ->
                             Js.trim (answer_at (answers (ui w)) j) <> []).
    { intros j Hj.
      destruct (decide (j = step (ui w))) as [-> | Hne];
        [exact Hcur | apply Hbefore; lia]. }
    pose proof (answered_query_nonempty _ Hall) as Hquery.
    split.
    + rewrite buildQuery_trim. by apply truthy_true.
    + rewrite handleFormSubmit_run, goNext_run, Hcan, Hidle, Hquery.
      cbn [negb]. destruct (decide _) as [Hlt | _]; [lia | reflexivity].
Qed.

Lemma C1_empty_query_error_witness :
  requests (run Docs.handleRecommend (Docs.mk (js "  ") None None [])).2 = []
  /\ (message (run submitRecommendations initial).1 = unanswered_message
      /\ requests (run submitRecommendations initial).2 = [])
  /\ requests (run handleFormSubmit
                 (ui (run_events initial_world filled_in_session))).2 =
       [Http.mk Http.POST Http.ApiRecommendations Http.json_headers
          (Http.JsonQuery
             (buildQuery
                (answers (ui (run_events initial_world filled_in_session)))))].
Proof.
  destruct C1_empty_query_error as (Hdocs & _ & Hcall & Hpage).
  assert (Hevs : feasible initial_world filled_in_session = true)
    by (vm_compute; reflexivity).
  assert (Hen : enabled (run_events initial_world filled_in_session) Next
                = true)
    by (vm_compute; reflexivity).
  assert (Hlast : step (ui (run_events initial_world filled_in_session))
                  = (total - 1)%nat)
    by (vm_compute; reflexivity).
  split; [| split].
  - apply (proj1 (Hdocs (Docs.mk (js "  ") None None []))). reflexivity.
  - apply (proj1 (Hcall initial eq_refl)). reflexivity.
  - exact (proj2 (Hpage filled_in_session Hevs Hen Hlast)).
Defined.

End EmptyQueryFacts.

(** ** The score, from the form to the store *)

Section ScoreFacts.

Import Backend.

Variable vocabulary : Type.
Variable vector : Type.
Variable max_image_size : nat.
Variable allowed_types : list Js.str.
Variable decode_image : Js.str -> image.


End ScoreFacts.


